(** * ludwig.schema: schema assembly and the [validate_config] pipeline

    A shallow embedding of [ludwig/schema/__init__.py]: the assembled
    schema ([get_schema]), the extended validator class ([get_validator])
    and the validation entry point ([validate_config]).

    Python objects are modelled as a small universe of values; the
    module-level state (the two [lru_cache]s, [VALIDATION_LOCK]) and the
    objects that are passed by reference (the configuration dictionaries)
    live in an explicit state that every operation threads.  Each call
    that leaves the module is logged, so that statements about the order
    of the stages can be made about the log. *)

From stdpp Require Import gmap strings list fin_maps.

Open Scope string_scope.
Open Scope list_scope.

(** ** Python values *)

(** The JSON-like fragment of Python's data model that configuration
    documents and schemas are made of.  A [dict] keeps its insertion
    order, so it is an association list; lists and tuples are kept apart
    because [isinstance] tells them apart.  Floats are left out. *)
#[warnings="-register-all"] Inductive value : Type :=
  | VNone
  | VBool (b : bool)
  | VInt (n : Z)
  | VStr (s : string)
  | VList (items : list value)
  | VTuple (items : list value)
  | VDict (entries : list (string * value)).

Module Value.

(** Structural equality, used for the keys of [lru_cache]. *)
Fixpoint eqb (v w : value) {struct v} : bool :=
  let fix eqb_list (l l' : list value) {struct l} : bool :=
    match l, l' with
    | [], [] => true
    | x :: l, y :: l' => eqb x y && eqb_list l l'
    | _, _ => false
    end in
  let fix eqb_entries (l l' : list (string * value)) {struct l} : bool :=
    match l, l' with
    | [], [] => true
    | (k, x) :: l, (k', y) :: l' =>
        bool_decide (k = k') && eqb x y && eqb_entries l l'
    | _, _ => false
    end in
  match v, w with
  | VNone, VNone => true
  | VBool a, VBool b => bool_decide (a = b)
  | VInt a, VInt b => bool_decide (a = b)
  | VStr a, VStr b => bool_decide (a = b)
  | VList l, VList l' => eqb_list l l'
  | VTuple l, VTuple l' => eqb_list l l'
  | VDict l, VDict l' => eqb_entries l l'
  | _, _ => false
  end.

(** [hash(v)] succeeds: lists and dicts are unhashable, a tuple is
    hashable when its items are. *)
Fixpoint hashable (v : value) : bool :=
  match v with
  | VList _ | VDict _ => false
  | VTuple items => forallb hashable items
  | _ => true
  end.

(** Induction over values that reaches inside lists and dicts. *)
Section Induction.
Variable P : value → Prop.
Hypothesis HNone : P VNone.
Hypothesis HBool : ∀ b, P (VBool b).
Hypothesis HInt : ∀ n, P (VInt n).
Hypothesis HStr : ∀ s, P (VStr s).
Hypothesis HList : ∀ l, Forall P l → P (VList l).
Hypothesis HTuple : ∀ l, Forall P l → P (VTuple l).
Hypothesis HDict : ∀ l, Forall (λ kv, P kv.2) l → P (VDict l).

Fixpoint deep_ind (v : value) : P v :=
  match v with
  | VNone => HNone
  | VBool b => HBool b
  | VInt n => HInt n
  | VStr s => HStr s
  | VList l =>
      HList l ((fix go l : Forall P l :=
                  match l with
                  | [] => Forall_nil_2 P
                  | x :: l => Forall_cons_2 P x l (deep_ind x) (go l)
                  end) l)
  | VTuple l =>
      HTuple l ((fix go l : Forall P l :=
                   match l with
                   | [] => Forall_nil_2 P
                   | x :: l => Forall_cons_2 P x l (deep_ind x) (go l)
                   end) l)
  | VDict l =>
      HDict l ((fix go l : Forall (λ kv, P kv.2) l :=
                  match l with
                  | [] => Forall_nil_2 _
                  | kv :: l => Forall_cons_2 _ kv l (deep_ind kv.2) (go l)
                  end) l)
  end.
End Induction.

End Value.

(** ** Exceptions *)

(** The exceptions that can leave [validate_config]: the two the Python
    runtime raises for the expressions of the function itself, and the
    error kinds of the stages. *)
Inductive exn : Type :=
  | AttributeError (msg : string)
  | TypeError (msg : string)
  | UndefinedTypeCheck (type : string)
  | UnknownModelType (model_type : value)
  | UpgradeError (msg : string)
  | SplitConfigError (msg : string)
  | StructuralValidationError (path msg : string)
  | SemanticCheckError (rule msg : string).

(** What a call gives back: an exception or a value. *)
Abbreviation result A := (exn + A)%type.

Definition error_of {A} (r : result A) : option exn :=
  match r with inl e => Some e | inr _ => None end.

(** ** Dictionaries *)

Fixpoint lookup_key (k : string) (entries : list (string * value)) : option value :=
  match entries with
  | [] => None
  | (k', v) :: entries => if decide (k' = k) then Some v else lookup_key k entries
  end.

(** [d.get(k, dflt)]; only a dict has the method. *)
Definition dict_get (d : value) (k : string) (dflt : value) : result value :=
  match d with
  | VDict entries => inr (default dflt (lookup_key k entries))
  | _ => inl (AttributeError "get")
  end.

(** [d[k]] for a key that is there, [None] of [option] otherwise. *)
Definition dict_item (d : value) (k : string) : option value :=
  match d with
  | VDict entries => lookup_key k entries
  | _ => None
  end.

Definition dict_keys (d : value) : list string :=
  match d with
  | VDict entries => entries.*1
  | _ => []
  end.

(** ** Constants *)

(** Modelled from the spec: [ludwig.constants] is not among the sources.
    The keys are the top-level keys of the configuration document and
    [preprocessing.split] as the spec's data model names them; the
    standard model type, which the spec leaves unnamed, is ludwig's
    encoder-combiner-decoder model. *)
Definition MODEL_TYPE : string := "model_type".
Definition INPUT_FEATURES : string := "input_features".
Definition OUTPUT_FEATURES : string := "output_features".
Definition COMBINER : string := "combiner".
Definition TRAINER : string := "trainer".
Definition PREPROCESSING : string := "preprocessing".
Definition HYPEROPT : string := "hyperopt".
Definition DEFAULTS : string := "defaults".
Definition SPLIT : string := "split".
Definition MODEL_ECD : string := "ecd".

(** ** The validator class *)

Inductive pytype : Type := py_list | py_tuple | py_dict | py_str | py_int | py_bool | py_NoneType.

Definition isinstance (instance : value) (t : pytype) : bool :=
  match instance, t with
  | VList _, py_list | VTuple _, py_tuple | VDict _, py_dict | VStr _, py_str
  | VNone, py_NoneType | VBool _, py_bool => true
  | VInt _, py_int | VBool _, py_int => true
  | _, _ => false
  end.

(** jsonschema's [TypeChecker]: a map from the names of the structural
    types to predicates.  jsonschema hands each predicate the checker
    itself as first argument; none of the predicates here looks at it, so
    the map holds the predicates already applied to it. *)
Abbreviation type_checker := (gmap string (value → bool)).

Definition redefine (type : string) (fn : value → bool) (checker : type_checker) : type_checker :=
  <[type := fn]> checker.

(** [checker.is_type(instance, type)] *)
Definition is_type (checker : type_checker) (instance : value) (type : string) : result bool :=
  match checker !! type with
  | Some fn => inr (fn instance)
  | None => inl (UndefinedTypeCheck type)
  end.

(** The predicates of [Draft7Validator.TYPE_CHECKER]. *)
Definition draft7_type_checker : type_checker :=
  list_to_map
    [("array", λ v, isinstance v py_list);
     ("boolean", λ v, isinstance v py_bool);
     ("integer", λ v, isinstance v py_int && negb (isinstance v py_bool));
     ("object", λ v, isinstance v py_dict);
     ("null", λ v, isinstance v py_NoneType);
     ("number", λ v, isinstance v py_int && negb (isinstance v py_bool));
     ("string", λ v, isinstance v py_str)].

(** A validator class: its identity and its type checker. *)
Record validator : Type := Validator {
  class_id : nat;
  TYPE_CHECKER : type_checker;
}.

Definition Draft7Validator : validator :=
  {| class_id := 0; TYPE_CHECKER := draft7_type_checker |}.

(** [jsonschema.validators.extend]: every call makes a new class; [id] is
    the identity the new class gets. *)
Definition extend (base : validator) (type_checker : type_checker) (id : nat) : validator :=
  {| class_id := id; TYPE_CHECKER := type_checker |}.

(** The nested function of [get_validator]. *)
Definition custom_is_array {C : Type} (checker : C) (instance : value) : bool :=
  isinstance instance py_list || isinstance instance py_tuple.

(** The type checker of the class [get_validator] makes. *)
Definition extended_type_checker : type_checker :=
  redefine "array" (custom_is_array (TYPE_CHECKER Draft7Validator))
    (TYPE_CHECKER Draft7Validator).





(** ** State, log and the monad of the module *)

(** Objects passed by reference (the configuration documents) live in a
    heap.  A document is stored whole at its location: two documents at
    different locations share nothing. *)
Abbreviation loc := positive.
Abbreviation heap_t := (gmap loc value).

Definition deref (h : heap_t) (l : loc) : value := default VNone (h !! l).

(** The checks of [ludwig.schema.auxiliary_validations] that the module
    imports. *)
Inductive check : Type :=
  | check_validation_metrics_are_valid
  | check_feature_names_unique
  | check_tied_features_are_valid
  | check_dependent_features
  | check_training_runway
  | check_gbm_horovod_incompatibility
  | check_gbm_feature_types
  | check_ray_backend_in_memory_preprocessing
  | check_sequence_concat_combiner_requirements
  | check_tabtransformer_combiner_requirements
  | check_comparator_combiner_requirements
  | check_class_balance_preprocessing
  | check_sampling_exclusivity
  | check_hyperopt_search_space
  | check_hyperopt_metric_targets
  | check_gbm_single_output_feature.

(** The calls and reads [validate_config] makes, with their arguments. *)
Inductive call : Type :=
  | upgrade_call (config : loc)
  | model_type_read (updated_config : loc)
  | split_read (updated_config : loc)
  | get_splitter_call (kwargs : value)
  | splitter_validate_call (updated_config : loc)
  | get_schema_call (model_type : value)
  | get_validator_call
  | validate_call (instance : loc) (schema : value) (cls : validator)
  | check_call (c : check) (updated_config : loc).

(** An entry of the log: a call with the exception it raised, if any, or
    an operation on [VALIDATION_LOCK]. *)
Inductive event : Type :=
  | Ev (c : call) (raised : option exn)
  | Acquire
  | Release.

(** The module-level state and the heap. *)
Record state : Type := State {
  heap : heap_t;
  VALIDATION_LOCK : bool;                    (* [true]: the lock is held *)
  get_schema_cache : list (value * value);   (* most recently used first *)
  get_validator_cache : option validator;
  classes_created : nat;                     (* classes made by [extend] *)
}.

Definition set_heap (h : heap_t) (st : state) : state :=
  State h (VALIDATION_LOCK st) (get_schema_cache st) (get_validator_cache st) (classes_created st).
Definition set_lock (b : bool) (st : state) : state :=
  State (heap st) b (get_schema_cache st) (get_validator_cache st) (classes_created st).
Definition set_schema_cache (c : list (value * value)) (st : state) : state :=
  State (heap st) (VALIDATION_LOCK st) c (get_validator_cache st) (classes_created st).
Definition set_validator_cache (v : validator) (st : state) : state :=
  State (heap st) (VALIDATION_LOCK st) (get_schema_cache st) (Some v) (S (classes_created st)).

(** The state of a process that has just imported the module, with the
    given objects. *)
Definition fresh_process (h : heap_t) : state := State h false [] None 0.

(** How a computation ends: it returns, it raises, or it waits for
    [VALIDATION_LOCK] for ever. *)
Inductive outcome (A : Type) : Type :=
  | Ret (a : A)
  | Raise (e : exn)
  | Blocked.
Arguments Ret {A} a.
Arguments Raise {A} e.
Arguments Blocked {A}.

Definition M (A : Type) : Type := state → outcome A * state * list event.

Definition ret {A} (a : A) : M A := λ st, (Ret a, st, []).

Definition bind {A B} (m : M A) (k : A → M B) : M B := λ st,
  match m st with
  | (Ret a, st1, t1) => let '(r, st2, t2) := k a st1 in (r, st2, t1 ++ t2)
  | (Raise e, st1, t1) => (Raise e, st1, t1)
  | (Blocked, st1, t1) => (Blocked, st1, t1)
  end.

#[global] Instance M_ret : MRet M := @ret.
#[global] Instance M_bind : MBind M := λ A B k m, bind m k.

Definition raised {A} (r : outcome A) : option exn :=
  match r with Raise e => Some e | _ => None end.

(** Runs [m] and logs it as the call [c]. *)
Definition logged {A} (c : call) (m : M A) : M A := λ st,
  let '(r, st', t) := m st in (r, st', t ++ [Ev c (raised r)]).

(** An expression of the function itself, reading the heap. *)
Definition eval {A} (f : heap_t → result A) : M A := λ st,
  match f (heap st) with
  | inl e => (Raise e, st, [])
  | inr a => (Ret a, st, [])
  end.

(** A call of code outside the module, which may change objects. *)
Definition extern {A} (f : heap_t → result A * heap_t) : M A := λ st,
  let '(r, h) := f (heap st) in
  (match r with inl e => Raise e | inr a => Ret a end, set_heap h st, []).

(** [n] calls of [m], one after the other. *)
Fixpoint repeatedly {A} (n : nat) (m : M A) : M (list A) :=
  match n with
  | 0 => ret []
  | S n => a ← m; rest ← repeatedly n m; ret (a :: rest)
  end.

(** [with VALIDATION_LOCK: body]: the lock is not reentrant; it is
    released when the body returns and when it raises. *)
Definition with_VALIDATION_LOCK {A} (body : M A) : M A := λ st,
  if VALIDATION_LOCK st then (Blocked, st, [])
  else
    let '(r, st', t) := body (set_lock true st) in
    match r with
    | Blocked => (Blocked, st', Acquire :: t)
    | _ => (r, set_lock false st', Acquire :: t ++ [Release])
    end.

(** [wp m st Q]: the run of [m] from [st] ends in an outcome, a state and
    a log that satisfy [Q]. *)
Definition wp {A} (m : M A) (st : state) (Q : outcome A → state → list event → Prop) : Prop :=
  Q (m st).1.1 (m st).1.2 (m st).2.

Definition of_result {A} (r : result A) : outcome A :=
  match r with inl e => Raise e | inr a => Ret a end.

Arguments wp : simpl never.

(** ** The code outside the module *)

(** What [validate_config] and [get_schema] call and do not define: the
    content of the upgrade, the splitters, jsonschema's [validate], the
    semantic checks and the fragment providers.  Calls that receive a
    document receive its location and may change the heap. *)
Class Collaborators : Type := {
  (* ludwig.utils.backward_compatibility: the upgraded content of a document *)
  upgrade_doc : value → result value;
  (* ludwig.data.split *)
  Splitter : Type;
  get_splitter : list (string * value) → result Splitter;
  splitter_validate : Splitter → loc → heap_t → result unit * heap_t;
  (* jsonschema.validate(instance, schema, cls) *)
  validate : loc → value → validator → heap_t → result unit * heap_t;
  (* ludwig.schema.auxiliary_validations *)
  auxiliary_validation : check → loc → heap_t → result unit * heap_t;
  (* the fragment providers that take no argument *)
  get_model_type_jsonschema : value;
  get_input_feature_jsonschema : value;
  get_output_feature_jsonschema : value;
  get_combiner_jsonschema : value;
  get_preprocessing_jsonschema : value;
  get_hyperopt_jsonschema : value;
  get_defaults_jsonschema : value;
  (* ludwig.schema.trainer: the trainer fragment of each registered model type *)
  trainer_schema_registry : gmap string value;
}.

Section Schema.
Context `{Collaborators}.

(** Modelled from the spec: [ludwig.schema.trainer.get_trainer_jsonschema]
    is not among the sources.  The spec has the discriminator select its
    fragment in a registry, "with an explicit unknown discriminator
    error path": a discriminator without a registered fragment fails
    with [UnknownModelType]. *)
Definition get_trainer_jsonschema (model_type : value) : result value :=
  match model_type with
  | VStr name =>
      match trainer_schema_registry !! name with
      | Some fragment => inr fragment
      | None => inl (UnknownModelType model_type)
      end
  | _ => inl (UnknownModelType model_type)
  end.

(** Modelled from the spec:
    [ludwig.utils.backward_compatibility.upgrade_config_dict_to_latest_version]
    is not among the sources.  The spec: the upgrade "never mutates the
    caller's original document in place — returns a new value". *)
Definition upgrade_config_dict_to_latest_version (config : loc) (h : heap_t)
  : result loc * heap_t :=
  match upgrade_doc (deref h config) with
  | inl e => (inl e, h)
  | inr upgraded =>
      let updated_config := fresh (dom h) in
      (inr updated_config, <[updated_config := upgraded]> h)
  end.

(** *** [get_schema] *)

(** The body of [get_schema], without the cache. *)
Definition get_schema_uncached (model_type : value) : result value :=
  match get_trainer_jsonschema model_type with
  | inl e => inl e
  | inr trainer =>
      inr (VDict
        [("type", VStr "object");
         ("properties", VDict
            [(MODEL_TYPE, get_model_type_jsonschema);
             (INPUT_FEATURES, get_input_feature_jsonschema);
             (OUTPUT_FEATURES, get_output_feature_jsonschema);
             (COMBINER, get_combiner_jsonschema);
             (TRAINER, trainer);
             (PREPROCESSING, get_preprocessing_jsonschema);
             (HYPEROPT, get_hyperopt_jsonschema);
             (DEFAULTS, get_defaults_jsonschema)]);
         ("definitions", VDict []);
         ("required", VList [VStr INPUT_FEATURES; VStr OUTPUT_FEATURES])])
  end.

Fixpoint cache_find (key : value) (cache : list (value * value)) : option value :=
  match cache with
  | [] => None
  | (k, v) :: cache => if Value.eqb k key then Some v else cache_find key cache
  end.

Definition cache_remove (key : value) (cache : list (value * value)) : list (value * value) :=
  filter (λ kv, Value.eqb kv.1 key = false) cache.

(** [@lru_cache(maxsize=2) def get_schema(model_type)]: the key must be
    hashable; a hit makes the entry the most recently used one; a miss
    runs the body and, when it returns, keeps the result and drops the
    least recently used entry beyond two.  An exception is not cached. *)
Definition get_schema (model_type : value) : M value :=
  logged (get_schema_call model_type) (λ st,
    if negb (Value.hashable model_type) then (Raise (TypeError "unhashable type"), st, [])
    else
      match cache_find model_type (get_schema_cache st) with
      | Some schema =>
          (Ret schema,
           set_schema_cache ((model_type, schema) :: cache_remove model_type (get_schema_cache st)) st,
           [])
      | None =>
          match get_schema_uncached model_type with
          | inl e => (Raise e, st, [])
          | inr schema =>
              (Ret schema,
               set_schema_cache (take 2 ((model_type, schema) :: get_schema_cache st)) st,
               [])
          end
      end).

(** *** [get_validator] *)

(** [@lru_cache(maxsize=2) def get_validator()]: there is one key. *)
Definition get_validator : M validator :=
  logged get_validator_call (λ st,
    match get_validator_cache st with
    | Some cls => (Ret cls, st, [])
    | None =>
        let type_checker :=
          redefine "array" (custom_is_array (TYPE_CHECKER Draft7Validator))
            (TYPE_CHECKER Draft7Validator) in
        let cls := extend Draft7Validator type_checker (S (classes_created st)) in
        (Ret cls, set_validator_cache cls st, [])
    end).

(** *** [validate_config] *)

(** [get_splitter( **split )]: the argument after [**] must be a mapping. *)
Definition get_splitter_kwargs (split : value) : result Splitter :=
  match split with
  | VDict kwargs => get_splitter kwargs
  | _ => inl (TypeError "argument after ** must be a mapping")
  end.

(** One of the sixteen calls [check_...(updated_config)]. *)
Definition run_check (c : check) (updated_config : loc) : M unit :=
  logged (check_call c updated_config) (extern (auxiliary_validation c updated_config)).

Definition validate_config (config : loc) : M unit :=
  updated_config ←
    logged (upgrade_call config) (extern (upgrade_config_dict_to_latest_version config));
  model_type ←
    logged (model_type_read updated_config)
      (eval (λ h, dict_get (deref h updated_config) MODEL_TYPE (VStr MODEL_ECD)));
  split ←
    logged (split_read updated_config)
      (eval (λ h,
         match dict_get (deref h updated_config) PREPROCESSING (VDict []) with
         | inl e => inl e
         | inr preprocessing => dict_get preprocessing SPLIT (VDict [])
         end));
  splitter ← logged (get_splitter_call split) (eval (λ _, get_splitter_kwargs split));
  logged (splitter_validate_call updated_config)
    (extern (splitter_validate splitter updated_config));;
  with_VALIDATION_LOCK (
    schema ← get_schema model_type;
    cls ← get_validator;
    logged (validate_call updated_config schema cls)
      (extern (validate updated_config schema cls)));;
  (* Additional checks. *)
  run_check check_validation_metrics_are_valid updated_config;;
  run_check check_feature_names_unique updated_config;;
  run_check check_tied_features_are_valid updated_config;;
  run_check check_dependent_features updated_config;;
  run_check check_training_runway updated_config;;
  run_check check_gbm_horovod_incompatibility updated_config;;
  run_check check_gbm_feature_types updated_config;;
  run_check check_ray_backend_in_memory_preprocessing updated_config;;
  run_check check_sequence_concat_combiner_requirements updated_config;;
  run_check check_tabtransformer_combiner_requirements updated_config;;
  run_check check_comparator_combiner_requirements updated_config;;
  run_check check_class_balance_preprocessing updated_config;;
  run_check check_sampling_exclusivity updated_config;;
  run_check check_hyperopt_search_space updated_config;;
  run_check check_hyperopt_metric_targets updated_config;;
  run_check check_gbm_single_output_feature updated_config.

(** The checks of a list, one after the other: the last sixteen lines
    of [validate_config] are [run_checks semantic_checks]. *)
Fixpoint run_checks (cs : list check) (updated_config : loc) : M unit :=
  match cs with
  | [] => ret ()
  | c :: cs' =>
      match cs' with
      | [] => run_check c updated_config
      | _ :: _ => run_check c updated_config;; run_checks cs' updated_config
      end
  end.

End Schema.

Arguments run_checks : simpl never.

(** ** A reference instance of the collaborators *)

(** Modelled from the spec: none of the collaborators is among the
    sources.  This instance is the smallest one that shows the failures
    the spec's scenarios name: an unknown split strategy, a missing
    required key (scenario 1) and two features of the same name
    (scenario 2).  It serves to run the pipeline on concrete documents;
    the theorems hold for every instance. *)
Module Reference.

(** The upgraded content of a current document is the document. *)
Definition upgrade_doc (d : value) : result value :=
  match d with
  | VDict _ => inr d
  | _ => inl (UpgradeError "the configuration is not a mapping")
  end.

Definition split_strategies : list string := ["random"; "fixed"; "stratify"; "datetime"].

Definition get_splitter (kwargs : list (string * value)) : result string :=
  match default (VStr "random") (lookup_key "type" kwargs) with
  | VStr name =>
      if bool_decide (name ∈ split_strategies) then inr name
      else inl (SplitConfigError "unknown split strategy")
  | _ => inl (SplitConfigError "unknown split strategy")
  end.

Definition splitter_validate (splitter : string) (config : loc) (h : heap_t)
  : result unit * heap_t := (inr tt, h).

Definition required_keys (schema : value) : list string :=
  match dict_item schema "required" with
  | Some (VList keys) =>
      omap (λ k, match k with VStr name => Some name | _ => None end) keys
  | _ => []
  end.

(** The keywords of the top level of the assembled schema: the document
    is an object and has the required keys. *)
Definition validate (instance : loc) (schema : value) (cls : validator) (h : heap_t)
  : result unit * heap_t :=
  match is_type (TYPE_CHECKER cls) (deref h instance) "object" with
  | inl e => (inl e, h)
  | inr false => (inl (StructuralValidationError "" "is not of type 'object'"), h)
  | inr true =>
      match filter (λ k, k ∉ dict_keys (deref h instance)) (required_keys schema) with
      | [] => (inr tt, h)
      | k :: _ => (inl (StructuralValidationError "" ("'" +:+ k +:+ "' is a required property")), h)
      end
  end.

Definition feature_names (config : value) (section : string) : list string :=
  match dict_item config section with
  | Some (VList features) =>
      omap (λ f, match dict_item f "name" with Some (VStr name) => Some name | _ => None end)
        features
  | _ => []
  end.

Fixpoint first_duplicate (names : list string) : option string :=
  match names with
  | [] => None
  | name :: names =>
      if bool_decide (name ∈ names) then Some name else first_duplicate names
  end.

Definition auxiliary_validation (c : check) (config : loc) (h : heap_t)
  : result unit * heap_t :=
  match c with
  | check_feature_names_unique =>
      let names :=
        feature_names (deref h config) INPUT_FEATURES
        ++ feature_names (deref h config) OUTPUT_FEATURES in
      match first_duplicate names with
      | Some name => (inl (SemanticCheckError "check_feature_names_unique" name), h)
      | None => (inr tt, h)
      end
  | _ => (inr tt, h)
  end.

Definition fragment (type : string) : value := VDict [("type", VStr type)].

#[global] Instance collaborators : Collaborators :=
  Build_Collaborators
    upgrade_doc string get_splitter splitter_validate validate auxiliary_validation
    (fragment "string") (fragment "array") (fragment "array") (fragment "object")
    (fragment "object") (fragment "object") (fragment "object")
    {[ "ecd" := fragment "object"; "gbm" := fragment "object" ]}.

Definition feature (name type : string) : value :=
  VDict [("name", VStr name); ("type", VStr type)].

(** A well-formed document. *)
Definition good_config : value :=
  VDict [(INPUT_FEATURES, VList [feature "age" "number"; feature "city" "category"]);
         (OUTPUT_FEATURES, VList [feature "income" "number"])].

(** No [output_features], and two input features named [age]. *)
Definition bad_config : value :=
  VDict [(INPUT_FEATURES, VList [feature "age" "number"; feature "age" "category"])].

(** Has its keys, and two input features named [age]. *)
Definition duplicate_config : value :=
  VDict [(INPUT_FEATURES, VList [feature "age" "number"; feature "age" "category"]);
         (OUTPUT_FEATURES, VList [feature "income" "number"])].

(** No [output_features], two input features named [age], and a split
    strategy that does not exist. *)
Definition bad_split_config : value :=
  VDict [(INPUT_FEATURES, VList [feature "age" "number"; feature "age" "category"]);
         (PREPROCESSING, VDict [(SPLIT, VDict [("type", VStr "nope")])])].

(** A process whose only object is the document, at location 1. *)
Definition process (config : value) : state := fresh_process {[ 1%positive := config ]}.

Definition run (config : value) : outcome unit * state * list event :=
  validate_config 1%positive (process config).

End Reference.

(** ** Reading the log *)

(** The stages of the pipeline a call belongs to. *)
Inductive stage : Type :=
  | upgrade_stage
  | model_type_stage
  | split_read_stage
  | get_splitter_stage
  | splitter_validate_stage
  | get_schema_stage
  | get_validator_stage
  | validate_stage
  | check_stage (c : check).

Definition stage_of (c : call) : stage :=
  match c with
  | upgrade_call _ => upgrade_stage
  | model_type_read _ => model_type_stage
  | split_read _ => split_read_stage
  | get_splitter_call _ => get_splitter_stage
  | splitter_validate_call _ => splitter_validate_stage
  | get_schema_call _ => get_schema_stage
  | get_validator_call => get_validator_stage
  | validate_call _ _ _ => validate_stage
  | check_call c _ => check_stage c
  end.

(** The calls of a log, in order, without the lock operations. *)
Definition calls (t : list event) : list call :=
  omap (λ ev, match ev with Ev c _ => Some c | _ => None end) t.

Definition stages (t : list event) : list stage := stage_of <$> calls t.

#[global] Instance check_eq_dec : EqDecision check.
Proof. solve_decision. Defined.

#[global] Instance stage_eq_dec : EqDecision stage.
Proof. solve_decision. Defined.

(** The position of the first call of a stage in a log. *)
Definition first_at (a : stage) (t : list event) : option nat :=
  fst <$> list_find (λ b, b = a) (stages t).

(** Both stages are in the log, the first call of [a] before the first
    call of [b]. *)
Definition happens_before (a b : stage) (t : list event) : Prop :=
  match first_at a t, first_at b t with
  | Some i, Some j => (i < j)%nat
  | _, _ => False
  end.

(** The semantic checks of a log, in order. *)
Definition checks_run (t : list event) : list check :=
  omap (λ ev, match ev with Ev (check_call c _) _ => Some c | _ => None end) t.

(** The calls made while [VALIDATION_LOCK] is held, and the others;
    [held] tells whether it is held where the log starts. *)
Fixpoint under_lock (held : bool) (t : list event) : list call :=
  match t with
  | [] => []
  | Acquire :: t => under_lock true t
  | Release :: t => under_lock false t
  | Ev c _ :: t => if held then c :: under_lock held t else under_lock held t
  end.

Fixpoint outside_lock (held : bool) (t : list event) : list call :=
  match t with
  | [] => []
  | Acquire :: t => outside_lock true t
  | Release :: t => outside_lock false t
  | Ev c _ :: t => if held then outside_lock held t else c :: outside_lock held t
  end.

(** The operations on the lock of a log. *)
Fixpoint lock_ops (t : list event) : list event :=
  match t with
  | [] => []
  | Ev _ _ :: t => lock_ops t
  | ev :: t => ev :: lock_ops t
  end.

(** The document a call is given. *)
Definition document_of (c : call) : option loc :=
  match c with
  | upgrade_call l | model_type_read l | split_read l | splitter_validate_call l
  | validate_call l _ _ | check_call _ l => Some l
  | get_splitter_call _ | get_schema_call _ | get_validator_call => None
  end.

(** The sixteen checks in the order of [validate_config]. *)
Definition semantic_checks : list check :=
  [check_validation_metrics_are_valid;
   check_feature_names_unique;
   check_tied_features_are_valid;
   check_dependent_features;
   check_training_runway;
   check_gbm_horovod_incompatibility;
   check_gbm_feature_types;
   check_ray_backend_in_memory_preprocessing;
   check_sequence_concat_combiner_requirements;
   check_tabtransformer_combiner_requirements;
   check_comparator_combiner_requirements;
   check_class_balance_preprocessing;
   check_sampling_exclusivity;
   check_hyperopt_search_space;
   check_hyperopt_metric_targets;
   check_gbm_single_output_feature].

(** The stages in the order in which [validate_config] goes through them. *)
Definition pipeline : list stage :=
  [upgrade_stage; model_type_stage; split_read_stage; get_splitter_stage;
   splitter_validate_stage; get_schema_stage; get_validator_stage; validate_stage]
  ++ (check_stage <$> semantic_checks).

(** ** The ways a run of [validate_config] can end *)

Definition ok (c : call) : event := Ev c None.

(** The log of the checks [cs], all of which return. *)
Definition passed (cs : list check) (updated_config : loc) : list event :=
  (λ c, ok (check_call c updated_config)) <$> cs.

(** The log up to the lock, when nothing raises. *)
Definition before_lock (config updated_config : loc) (split : value) : list event :=
  [ok (upgrade_call config); ok (model_type_read updated_config);
   ok (split_read updated_config); ok (get_splitter_call split);
   ok (splitter_validate_call updated_config)].

(** The log of the [with] block, when nothing raises. *)
Definition locked_block (updated_config : loc) (model_type schema : value) (cls : validator)
  : list event :=
  [Acquire; ok (get_schema_call model_type); ok get_validator_call;
   ok (validate_call updated_config schema cls); Release].

(** [preprocessing.split] of a document, [{}] when it is not there. *)
Definition split_section (d : value) : result value :=
  match dict_get d PREPROCESSING (VDict []) with
  | inl e => inl e
  | inr preprocessing => dict_get preprocessing SPLIT (VDict [])
  end.

Section Runs.
Context `{Collaborators}.

(** The location of the upgraded document. *)
Definition new_loc (st : state) : loc := fresh (dom (heap st)).

(** The outcomes and logs of [validate_config config] from [st]: one
    rule for each place where the run can stop, and one for the run
    that goes through. *)
Inductive run_log (config : loc) (st : state) : outcome unit → list event → Prop :=
  | upgrade_raises e :
      upgrade_doc (deref (heap st) config) = inl e →
      run_log config st (Raise e) [Ev (upgrade_call config) (Some e)]
  | model_type_raises d e :
      upgrade_doc (deref (heap st) config) = inr d →
      dict_get d MODEL_TYPE (VStr MODEL_ECD) = inl e →
      run_log config st (Raise e)
        [ok (upgrade_call config); Ev (model_type_read (new_loc st)) (Some e)]
  | split_read_raises d model_type e :
      upgrade_doc (deref (heap st) config) = inr d →
      dict_get d MODEL_TYPE (VStr MODEL_ECD) = inr model_type →
      split_section d = inl e →
      run_log config st (Raise e)
        [ok (upgrade_call config); ok (model_type_read (new_loc st));
         Ev (split_read (new_loc st)) (Some e)]
  | get_splitter_raises d model_type split e :
      upgrade_doc (deref (heap st) config) = inr d →
      dict_get d MODEL_TYPE (VStr MODEL_ECD) = inr model_type →
      split_section d = inr split →
      get_splitter_kwargs split = inl e →
      run_log config st (Raise e)
        [ok (upgrade_call config); ok (model_type_read (new_loc st));
         ok (split_read (new_loc st)); Ev (get_splitter_call split) (Some e)]
  | splitter_validate_raises d model_type split e :
      upgrade_doc (deref (heap st) config) = inr d →
      dict_get d MODEL_TYPE (VStr MODEL_ECD) = inr model_type →
      split_section d = inr split →
      run_log config st (Raise e)
        [ok (upgrade_call config); ok (model_type_read (new_loc st));
         ok (split_read (new_loc st)); ok (get_splitter_call split);
         Ev (splitter_validate_call (new_loc st)) (Some e)]
  | lock_held d model_type split :
      upgrade_doc (deref (heap st) config) = inr d →
      dict_get d MODEL_TYPE (VStr MODEL_ECD) = inr model_type →
      split_section d = inr split →
      VALIDATION_LOCK st = true →
      run_log config st Blocked (before_lock config (new_loc st) split)
  | get_schema_raises d model_type split e :
      upgrade_doc (deref (heap st) config) = inr d →
      dict_get d MODEL_TYPE (VStr MODEL_ECD) = inr model_type →
      split_section d = inr split →
      VALIDATION_LOCK st = false →
      run_log config st (Raise e)
        (before_lock config (new_loc st) split
         ++ [Acquire; Ev (get_schema_call model_type) (Some e); Release])
  | validate_raises d model_type split schema cls e :
      upgrade_doc (deref (heap st) config) = inr d →
      dict_get d MODEL_TYPE (VStr MODEL_ECD) = inr model_type →
      split_section d = inr split →
      VALIDATION_LOCK st = false →
      run_log config st (Raise e)
        (before_lock config (new_loc st) split
         ++ [Acquire; ok (get_schema_call model_type); ok get_validator_call;
             Ev (validate_call (new_loc st) schema cls) (Some e); Release])
  | check_raises d model_type split schema cls before c after e :
      upgrade_doc (deref (heap st) config) = inr d →
      dict_get d MODEL_TYPE (VStr MODEL_ECD) = inr model_type →
      split_section d = inr split →
      VALIDATION_LOCK st = false →
      semantic_checks = before ++ c :: after →
      run_log config st (Raise e)
        (before_lock config (new_loc st) split
         ++ locked_block (new_loc st) model_type schema cls
         ++ passed before (new_loc st)
         ++ [Ev (check_call c (new_loc st)) (Some e)])
  | returns d model_type split schema cls :
      upgrade_doc (deref (heap st) config) = inr d →
      dict_get d MODEL_TYPE (VStr MODEL_ECD) = inr model_type →
      split_section d = inr split →
      VALIDATION_LOCK st = false →
      run_log config st (Ret ())
        (before_lock config (new_loc st) split
         ++ locked_block (new_loc st) model_type schema cls
         ++ passed semantic_checks (new_loc st)).

End Runs.

(** ** Invariants of the caches *)

Section Invariants.
Context `{Collaborators}.

(** What [get_schema] keeps is what its body returned. *)
Definition schema_cache_sound (st : state) : Prop :=
  ∀ key schema, (key, schema) ∈ get_schema_cache st → get_schema_uncached key = inr schema.

(** What [get_validator] keeps is a class it made. *)
Definition validator_cache_sound (st : state) : Prop :=
  ∀ cls, get_validator_cache st = Some cls →
    TYPE_CHECKER cls = extended_type_checker
    ∧ (1 ≤ class_id cls ≤ classes_created st)%nat.

(** What a run of [validate_config] with log [t] may do to the state
    of the module. *)
Definition module_step (st st' : state) (t : list event) : Prop :=
  VALIDATION_LOCK st' = VALIDATION_LOCK st
  ∧ (schema_cache_sound st → schema_cache_sound st')
  ∧ (validator_cache_sound st → validator_cache_sound st')
  ∧ (classes_created st ≤ classes_created st' ≤ S (classes_created st))%nat
  ∧ (∀ cls, get_validator_cache st = Some cls →
       get_validator_cache st' = Some cls ∧ classes_created st' = classes_created st)
  ∧ (∀ instance schema cls o,
       Ev (validate_call instance schema cls) o ∈ t → get_validator_cache st' = Some cls).

End Invariants.

(** ** Calls that change their argument only *)

Section Frame.
Context `{Collaborators}.

(** [f l] changes no object but the one at [l]. *)
Definition keeps_to (f : loc → heap_t → result unit * heap_t) : Prop :=
  ∀ l h l', l' ≠ l → (f l h).2 !! l' = h !! l'.

(** The calls that are given the document change no other object. *)
Definition change_their_argument_only : Prop :=
  (∀ splitter, keeps_to (splitter_validate splitter))
  ∧ (∀ schema cls, keeps_to (λ l, validate l schema cls))
  ∧ (∀ c, keeps_to (auxiliary_validation c)).

End Frame.

(** ** The state a process keeps between two calls *)

(** [maxsize=2]: [get_schema] keeps at most two schemas. *)
Definition schema_cache_bounded (st : state) : Prop :=
  (length (get_schema_cache st) ≤ 2)%nat.

Section Process.
Context `{Collaborators}.

(** What holds of the module state between two calls of
    [validate_config]: the lock is free, the caches hold what the
    functions returned, [get_schema] keeps at most two schemas and
    [get_validator] has made at most one class, the one it keeps. *)
Definition module_invariant (st : state) : Prop :=
  VALIDATION_LOCK st = false
  ∧ schema_cache_sound st
  ∧ validator_cache_sound st
  ∧ schema_cache_bounded st
  ∧ (classes_created st ≤ 1)%nat
  ∧ (get_validator_cache st = None → classes_created st = 0%nat).

(** What a run of [validate_config] with log [t] may do to the cache of
    [get_schema], and which schema it validates with. *)
Definition cache_step (st st' : state) (t : list event) : Prop :=
  (schema_cache_bounded st → schema_cache_bounded st')
  ∧ (get_validator_cache st' = None → classes_created st' = classes_created st)
  ∧ (∀ model_type e,
       Ev (get_schema_call model_type) (Some e) ∈ t →
       get_schema_cache st' = get_schema_cache st
       ∧ (Value.hashable model_type = false ∧ e = TypeError "unhashable type"
          ∨ Value.hashable model_type = true ∧ get_schema_uncached model_type = inl e))
  ∧ (∀ model_type,
       Ev (get_schema_call model_type) None ∈ t →
       Value.hashable model_type = true
       ∧ ∃ schema,
           head (get_schema_cache st') = Some (model_type, schema)
           ∧ ∀ instance schema' cls o,
               Ev (validate_call instance schema' cls) o ∈ t → schema' = schema)
  ∧ ((∀ model_type o, Ev (get_schema_call model_type) o ∉ t) →
     get_schema_cache st' = get_schema_cache st).

(** A caller that validates the documents of a list one after the
    other and goes on when a call raises: the outcomes of the calls, the
    state after the last one and the log of all of them. *)
Fixpoint validate_configs (configs : list loc) (st : state)
  : list (outcome unit) * state * list event :=
  match configs with
  | [] => ([], st, [])
  | config :: configs =>
      let '(r, st1, t1) := validate_config config st in
      let '(rs, st2, t2) := validate_configs configs st1 in
      (r :: rs, st2, t1 ++ t2)
  end.

End Process.

(** ** More documents and a larger registry *)

(** Modelled from the spec: as [Reference], for the documents and the
    model types that the edge cases of [validate_config] and the
    eviction in [get_schema] need. *)
Module Documents.

(** [model_type] is a list. *)
Definition list_model_type_config : value :=
  VDict [(MODEL_TYPE, VList [VStr "ecd"]);
         (INPUT_FEATURES, VList [Reference.feature "age" "number"]);
         (OUTPUT_FEATURES, VList [Reference.feature "income" "number"])].

(** [preprocessing] is there and is [None]. *)
Definition null_preprocessing_config : value :=
  VDict [(INPUT_FEATURES, VList [Reference.feature "age" "number"]);
         (OUTPUT_FEATURES, VList [Reference.feature "income" "number"]);
         (PREPROCESSING, VNone)].

(** [preprocessing.split] is there and is [None]. *)
Definition null_split_config : value :=
  VDict [(INPUT_FEATURES, VList [Reference.feature "age" "number"]);
         (OUTPUT_FEATURES, VList [Reference.feature "income" "number"]);
         (PREPROCESSING, VDict [(SPLIT, VNone)])].

(** A well-formed document of the model type [gbm]. *)
Definition gbm_config : value :=
  VDict [(MODEL_TYPE, VStr "gbm");
         (INPUT_FEATURES, VList [Reference.feature "age" "number"]);
         (OUTPUT_FEATURES, VList [Reference.feature "income" "number"])].

(** The reference instance with a third registered model type. *)
Definition three_model_types : Collaborators :=
  Build_Collaborators
    Reference.upgrade_doc string Reference.get_splitter Reference.splitter_validate
    Reference.validate Reference.auxiliary_validation
    (Reference.fragment "string") (Reference.fragment "array") (Reference.fragment "array")
    (Reference.fragment "object") (Reference.fragment "object") (Reference.fragment "object")
    (Reference.fragment "object")
    {[ "ecd" := Reference.fragment "object"; "gbm" := Reference.fragment "object";
       "llm" := Reference.fragment "object" ]}.

(** The reference instance with no registered model type: the body of
    [get_schema] raises for every model type. *)
Definition no_model_types : Collaborators :=
  Build_Collaborators
    Reference.upgrade_doc string Reference.get_splitter Reference.splitter_validate
    Reference.validate Reference.auxiliary_validation
    (Reference.fragment "string") (Reference.fragment "array") (Reference.fragment "array")
    (Reference.fragment "object") (Reference.fragment "object") (Reference.fragment "object")
    (Reference.fragment "object") ∅.

(** A process with three documents. *)
Definition process : state :=
  fresh_process
    {[ 1%positive := Reference.good_config; 2%positive := Reference.bad_config;
       3%positive := gbm_config ]}.

End Documents.

(** * Properties *)

Module ValueFacts.
Import Value.

Lemma eqb_eq (v w : value) : eqb v w = true ↔ v = w.
Proof.
  revert w. induction v as [| | | |l IH|l IH|l IH] using deep_ind;
    intros []; simpl;
    try (split; [discriminate | congruence]);
    try (rewrite bool_decide_eq_true; split; congruence).
  - done.
  - revert items. induction IH as [|x l Hx _ IHl]; intros [|y l']; simpl;
      try (split; [discriminate | congruence]); [done|].
    rewrite andb_true_iff, Hx, IHl. split; [intros [-> ?] | intros ?; split]; congruence.
  - revert items. induction IH as [|x l Hx _ IHl]; intros [|y l']; simpl;
      try (split; [discriminate | congruence]); [done|].
    rewrite andb_true_iff, Hx, IHl. split; [intros [-> ?] | intros ?; split]; congruence.
  - revert entries.
    induction IH as [|[k x] l Hx _ IHl]; intros [|[k' y] l']; simpl;
      try (split; [discriminate | congruence]); [done|].
    simpl in Hx.
    rewrite !andb_true_iff, bool_decide_eq_true, Hx, IHl.
    split; [intros [[-> ->] ?] | intros ?; repeat split]; congruence.
Qed.

Lemma eqb_refl (v : value) : eqb v v = true.
Proof. by apply eqb_eq. Qed.

End ValueFacts.

Section SchemaFacts.
Context `{Collaborators}.

Lemma cache_find_Some key cache schema :
  cache_find key cache = Some schema → (key, schema) ∈ cache.
Proof.
  induction cache as [|[k v] cache IH]; simpl; [done|].
  destruct (Value.eqb k key) eqn:Hk.
  - apply ValueFacts.eqb_eq in Hk as ->. intros [= ->]. left.
  - intros Hfind. right. by apply IH.
Qed.

Lemma cache_find_None key cache :
  cache_find key cache = None → ∀ schema, (key, schema) ∉ cache.
Proof.
  induction cache as [|[k v] cache IH]; simpl; intros Hfind schema Hin.
  - by apply elem_of_nil in Hin.
  - destruct (Value.eqb k key) eqn:Hk; [done|].
    apply elem_of_cons in Hin as [[= <- <-]|Hin]; [|by eapply IH].
    by rewrite ValueFacts.eqb_refl in Hk.
Qed.

Lemma fresh_process_sound h :
  schema_cache_sound (fresh_process h) ∧ validator_cache_sound (fresh_process h).
Proof.
  split.
  - intros key schema Hin. by apply elem_of_nil in Hin.
  - intros cls [=].
Qed.

(** What a call of [get_schema] does, in a state whose cache is sound. *)
Lemma get_schema_run model_type st r st' t :
  schema_cache_sound st →
  get_schema model_type st = (r, st', t) →
  t = [Ev (get_schema_call model_type) (raised r)]
  ∧ heap st' = heap st
  ∧ VALIDATION_LOCK st' = VALIDATION_LOCK st
  ∧ get_validator_cache st' = get_validator_cache st
  ∧ classes_created st' = classes_created st
  ∧ schema_cache_sound st'
  ∧ match r with
    | Ret schema => get_schema_uncached model_type = inr schema
    | Raise e =>
        st' = st
        ∧ (get_schema_uncached model_type = inl e
           ∨ Value.hashable model_type = false ∧ e = TypeError "unhashable type")
    | Blocked => False
    end.
Proof.
  intros Hsound. unfold get_schema, logged.
  destruct (Value.hashable model_type) eqn:Hhash; simpl.
  - destruct (cache_find model_type (get_schema_cache st)) as [schema|] eqn:Hfind.
    + intros [= <- <- <-]. apply cache_find_Some in Hfind.
      repeat split; try done.
      * intros key schema'. simpl. unfold cache_remove.
        rewrite elem_of_cons, list_elem_of_filter.
        intros [[= -> ->]|[_ Hin]]; by apply Hsound.
      * by apply Hsound.
    + destruct (get_schema_uncached model_type) as [e|schema] eqn:Hbody.
      * intros [= <- <- <-]. repeat split; try done. by left.
      * intros [= <- <- <-]. repeat split; try done.
        intros key schema' Hin. simpl in Hin.
        apply elem_of_cons in Hin as [[= -> ->]|Hin]; [done|].
        apply Hsound. by eapply (subseteq_take 1).
  - intros [= <- <- <-]. repeat split; try done. by right.
Qed.

Lemma get_schema_uncached_registered name fragment :
  trainer_schema_registry !! name = Some fragment →
  get_schema_uncached (VStr name)
  = inr (VDict
      [("type", VStr "object");
       ("properties", VDict
          [(MODEL_TYPE, get_model_type_jsonschema);
           (INPUT_FEATURES, get_input_feature_jsonschema);
           (OUTPUT_FEATURES, get_output_feature_jsonschema);
           (COMBINER, get_combiner_jsonschema);
           (TRAINER, fragment);
           (PREPROCESSING, get_preprocessing_jsonschema);
           (HYPEROPT, get_hyperopt_jsonschema);
           (DEFAULTS, get_defaults_jsonschema)]);
       ("definitions", VDict []);
       ("required", VList [VStr INPUT_FEATURES; VStr OUTPUT_FEATURES])]).
Proof. intros Hreg. unfold get_schema_uncached. simpl. by rewrite Hreg. Qed.

(** A hashable key whose schema can be built gets its schema. *)
Lemma get_schema_returns model_type schema st :
  schema_cache_sound st →
  Value.hashable model_type = true →
  get_schema_uncached model_type = inr schema →
  ∃ st', get_schema model_type st
         = (Ret schema, st', [Ev (get_schema_call model_type) None]).
Proof.
  intros Hsound Hhash Hbody.
  destruct (get_schema model_type st) as [[r st'] t] eqn:Hrun.
  destruct (get_schema_run _ _ _ _ _ Hsound Hrun) as (-> & _ & _ & _ & _ & _ & Hr).
  destruct r as [schema'|e|]; [| |done].
  - exists st'. simpl. congruence.
  - destruct Hr as (_ & [?|[? _]]); congruence.
Qed.

(** C3: for every discriminator string that is not one of the
    registered model types, [get_schema] raises [UnknownModelType]
    instead of returning a schema; nothing is cached. *)
Theorem get_schema_unknown_model_type name st :
  trainer_schema_registry !! name = None →
  schema_cache_sound st →
  get_schema (VStr name) st
  = (Raise (UnknownModelType (VStr name)), st,
     [Ev (get_schema_call (VStr name)) (Some (UnknownModelType (VStr name)))]).
Proof.
  intros Hreg Hsound.
  assert (get_schema_uncached (VStr name) = inl (UnknownModelType (VStr name))) as Hbody.
  { unfold get_schema_uncached. simpl. by rewrite Hreg. }
  destruct (get_schema (VStr name) st) as [[r st'] t] eqn:Hrun.
  destruct (get_schema_run _ _ _ _ _ Hsound Hrun) as (-> & _ & _ & _ & _ & _ & Hr).
  destruct r as [schema|e|]; [congruence| |done].
  destruct Hr as (-> & [?|[? _]]); [|done].
  simpl. repeat f_equal; congruence.
Qed.

(** C5, as amended: for every registered model type, [get_schema]
    returns a schema whose [required] list is
    [[input_features, output_features]] and whose [properties] have
    exactly the eight top-level keys, in which only the [trainer]
    fragment comes from the model type. *)
Theorem get_schema_required_and_properties name fragment st :
  trainer_schema_registry !! name = Some fragment →
  schema_cache_sound st →
  ∃ schema st' properties,
    get_schema (VStr name) st
    = (Ret schema, st', [Ev (get_schema_call (VStr name)) None])
    ∧ dict_item schema "required"
      = Some (VList [VStr INPUT_FEATURES; VStr OUTPUT_FEATURES])
    ∧ dict_item schema "properties" = Some properties
    ∧ dict_keys properties
      = [MODEL_TYPE; INPUT_FEATURES; OUTPUT_FEATURES; COMBINER; TRAINER;
         PREPROCESSING; HYPEROPT; DEFAULTS]
    ∧ properties
      = VDict
          [(MODEL_TYPE, get_model_type_jsonschema);
           (INPUT_FEATURES, get_input_feature_jsonschema);
           (OUTPUT_FEATURES, get_output_feature_jsonschema);
           (COMBINER, get_combiner_jsonschema);
           (TRAINER, fragment);
           (PREPROCESSING, get_preprocessing_jsonschema);
           (HYPEROPT, get_hyperopt_jsonschema);
           (DEFAULTS, get_defaults_jsonschema)].
Proof.
  intros Hreg Hsound.
  pose proof (get_schema_uncached_registered _ _ Hreg) as Hbody.
  destruct (get_schema_returns (VStr name) _ st Hsound eq_refl Hbody) as [st' Hrun].
  eexists _, st', _. split; [exact Hrun|]. by repeat split.
Qed.

(** C10: the schema [get_schema] returns has ["type"] equal to
    ["object"] and ["definitions"] bound to the empty mapping, whatever
    the model type. *)
Theorem get_schema_type_and_definitions model_type st schema st' t :
  schema_cache_sound st →
  get_schema model_type st = (Ret schema, st', t) →
  dict_item schema "type" = Some (VStr "object")
  ∧ dict_item schema "definitions" = Some (VDict []).
Proof.
  intros Hsound Hrun.
  destruct (get_schema_run _ _ _ _ _ Hsound Hrun) as (_ & _ & _ & _ & _ & _ & Hbody).
  unfold get_schema_uncached in Hbody.
  destruct (get_trainer_jsonschema model_type); [done|].
  by injection Hbody as <-.
Qed.

End SchemaFacts.

Section ValidatorFacts.
Context `{Collaborators}.

(** What a call of [get_validator] does. *)
Lemma get_validator_run st :
  get_validator st
  = match get_validator_cache st with
    | Some cls => (Ret cls, st, [Ev get_validator_call None])
    | None =>
        let cls := extend Draft7Validator extended_type_checker (S (classes_created st)) in
        (Ret cls, set_validator_cache cls st, [Ev get_validator_call None])
    end.
Proof. unfold get_validator, logged. by destruct (get_validator_cache st). Qed.








Lemma repeatedly_get_validator_cached n cls st :
  get_validator_cache st = Some cls →
  repeatedly n get_validator st
  = (Ret (replicate n cls), st, replicate n (Ev get_validator_call None)).
Proof.
  intros Hcache. induction n as [|n IH]; simpl; [done|].
  unfold mbind, M_bind, bind. rewrite get_validator_run, Hcache, IH.
  unfold ret. simpl. by rewrite app_nil_r.
Qed.

End ValidatorFacts.

(** ** Reasoning about runs *)

Section Wp.
Context {A B : Type}.
Implicit Types (Q : outcome B → state → list event → Prop).

Lemma wp_run (m : M B) st Q r st' t : m st = (r, st', t) → wp m st Q → Q r st' t.
Proof. unfold wp. by intros ->. Qed.

Lemma wp_ret (b : B) st Q : Q (Ret b) st [] → wp (ret b) st Q.
Proof. done. Qed.

Lemma wp_bind (m : M A) (k : A → M B) st Q :
  wp m st (λ r st1 t1,
    match r with
    | Ret a => wp (k a) st1 (λ r' st2 t2, Q r' st2 (t1 ++ t2))
    | Raise e => Q (Raise e) st1 t1
    | Blocked => Q Blocked st1 t1
    end) →
  wp (m ≫= k) st Q.
Proof.
  unfold wp, mbind, M_bind, bind.
  destruct (m st) as [[[a|e|] st1] t1]; simpl; [|done..].
  by destruct (k a st1) as [[r' st2] t2].
Qed.

Lemma wp_logged_extern c (f : heap_t → result B * heap_t) st Q :
  (∀ res h, f (heap st) = (res, h) →
     Q (of_result res) (set_heap h st) [Ev c (error_of res)]) →
  wp (logged c (extern f)) st Q.
Proof.
  intros HQ. unfold wp, logged, extern.
  destruct (f (heap st)) as [res h] eqn:Hf. specialize (HQ _ _ eq_refl).
  by destruct res.
Qed.

Lemma wp_logged_eval c (f : heap_t → result B) st Q :
  Q (of_result (f (heap st))) st [Ev c (error_of (f (heap st)))] →
  wp (logged c (eval f)) st Q.
Proof. unfold wp, logged, eval. by destruct (f (heap st)). Qed.

Lemma wp_with_VALIDATION_LOCK (body : M B) st Q :
  (VALIDATION_LOCK st = true → Q Blocked st []) →
  (VALIDATION_LOCK st = false →
   wp body (set_lock true st) (λ r st' t,
     match r with
     | Blocked => Q Blocked st' (Acquire :: t)
     | _ => Q r (set_lock false st') (Acquire :: t ++ [Release])
     end)) →
  wp (with_VALIDATION_LOCK body) st Q.
Proof.
  unfold wp, with_VALIDATION_LOCK. intros Hheld Hfree.
  destruct (VALIDATION_LOCK st); [by apply Hheld|].
  specialize (Hfree eq_refl).
  by destruct (body (set_lock true st)) as [[[] ?] ?].
Qed.

End Wp.

Section PipelineFacts.
Context `{Collaborators}.

Lemma validate_config_eq config :
  validate_config config
  = (updated_config ←
       logged (upgrade_call config) (extern (upgrade_config_dict_to_latest_version config));
     model_type ←
       logged (model_type_read updated_config)
         (eval (λ h, dict_get (deref h updated_config) MODEL_TYPE (VStr MODEL_ECD)));
     split ←
       logged (split_read updated_config)
         (eval (λ h,
            match dict_get (deref h updated_config) PREPROCESSING (VDict []) with
            | inl e => inl e
            | inr preprocessing => dict_get preprocessing SPLIT (VDict [])
            end));
     splitter ← logged (get_splitter_call split) (eval (λ _, get_splitter_kwargs split));
     logged (splitter_validate_call updated_config)
       (extern (splitter_validate splitter updated_config));;
     with_VALIDATION_LOCK (
       schema ← get_schema model_type;
       cls ← get_validator;
       logged (validate_call updated_config schema cls)
         (extern (validate updated_config schema cls)));;
     run_checks semantic_checks updated_config).
Proof. reflexivity. Qed.

Lemma deref_insert (h : heap_t) l d : deref (<[l:=d]> h) l = d.
Proof. unfold deref. by rewrite lookup_insert_eq. Qed.

Lemma set_heap_id st : set_heap (heap st) st = st.
Proof. by destruct st. Qed.

Lemma set_heap_set_heap h h' st : set_heap h (set_heap h' st) = set_heap h st.
Proof. done. Qed.

(** [get_schema] touches its cache only, logs itself and does not wait. *)
Lemma wp_get_schema model_type st (Q : outcome value → state → list event → Prop) :
  (∀ r st',
     get_schema model_type st = (r, st', [Ev (get_schema_call model_type) (raised r)]) →
     r ≠ Blocked →
     st' = set_schema_cache (get_schema_cache st') st →
     Q r st' [Ev (get_schema_call model_type) (raised r)]) →
  wp (get_schema model_type) st Q.
Proof.
  intros HQ. unfold wp.
  destruct (get_schema model_type st) as [[r st'] t] eqn:Hrun. simpl.
  revert Hrun. unfold get_schema, logged.
  destruct (negb (Value.hashable model_type));
    [|destruct (cache_find _ _); [|destruct (get_schema_uncached _)]];
    intros [= <- <- <-]; apply HQ; simpl; try done; by destruct st.
Qed.

Lemma wp_get_validator st (Q : outcome validator → state → list event → Prop) :
  (∀ cls st',
     get_validator st = (Ret cls, st', [Ev get_validator_call None]) →
     heap st' = heap st →
     VALIDATION_LOCK st' = VALIDATION_LOCK st →
     get_schema_cache st' = get_schema_cache st →
     Q (Ret cls) st' [Ev get_validator_call None]) →
  wp get_validator st Q.
Proof.
  intros HQ. unfold wp. rewrite get_validator_run.
  destruct (get_validator_cache st) eqn:Hcache; simpl; apply HQ; try done;
    by rewrite get_validator_run, Hcache.
Qed.

Lemma run_check_run c updated_config st :
  run_check c updated_config st
  = (of_result (auxiliary_validation c updated_config (heap st)).1,
     set_heap (auxiliary_validation c updated_config (heap st)).2 st,
     [Ev (check_call c updated_config)
        (error_of (auxiliary_validation c updated_config (heap st)).1)]).
Proof.
  unfold run_check, logged, extern.
  by destruct (auxiliary_validation _ _ _) as [[] ?].
Qed.

Lemma run_checks_cons c cs updated_config st :
  run_checks (c :: cs) updated_config st
  = (run_check c updated_config;; run_checks cs updated_config) st.
Proof.
  destruct cs; [|done]. unfold run_checks, mbind, M_bind, bind, ret.
  rewrite run_check_run.
  destruct (auxiliary_validation _ _ _) as [[e|[]] h]; simpl; done.
Qed.

(** The checks run in the order of the list up to the first one that
    raises; they change nothing but objects. *)
Lemma run_checks_run cs updated_config st r st' t :
  run_checks cs updated_config st = (r, st', t) →
  st' = set_heap (heap st') st
  ∧ (r = Ret () ∧ t = passed cs updated_config
     ∨ ∃ before c after e,
         cs = before ++ c :: after ∧ r = Raise e
         ∧ t = passed before updated_config ++ [Ev (check_call c updated_config) (Some e)]).
Proof.
  revert st t. induction cs as [|c cs IH]; intros st t.
  - intros [= <- <- <-]. split; [by destruct st|]. by left.
  - rewrite run_checks_cons. unfold mbind, M_bind, bind. rewrite run_check_run.
    destruct (auxiliary_validation _ _ _) as [[e|[]] h]; simpl.
    + intros [= <- <- <-]. split; [by destruct st|].
      right. by exists [], c, cs, e.
    + destruct (run_checks cs updated_config (set_heap h st)) as [[r2 st2] t2] eqn:Hrest.
      intros [= <- <- <-]. destruct (IH _ _ Hrest) as [Hst [[-> ->]|Hraise]].
      * split; [by rewrite Hst; destruct st|]. by left.
      * destruct Hraise as (before & c' & after & e & -> & -> & ->).
        split; [by rewrite Hst; destruct st|].
        right. by exists (c :: before), c', after, e.
Qed.

Lemma wp_run_checks cs updated_config st (Q : outcome unit → state → list event → Prop) :
  (∀ r st' t,
     run_checks cs updated_config st = (r, st', t) →
     st' = set_heap (heap st') st →
     (r = Ret () ∧ t = passed cs updated_config
      ∨ ∃ before c after e,
          cs = before ++ c :: after ∧ r = Raise e
          ∧ t = passed before updated_config
                ++ [Ev (check_call c updated_config) (Some e)]) →
     Q r st' t) →
  wp (run_checks cs updated_config) st Q.
Proof.
  intros HQ. unfold wp.
  destruct (run_checks cs updated_config st) as [[r st'] t] eqn:Hrun.
  destruct (run_checks_run _ _ _ _ _ _ Hrun). by apply HQ.
Qed.

(** Every run of [validate_config] ends in one of the ways of
    [run_log]. *)
Lemma validate_config_run_log config st r st' t :
  validate_config config st = (r, st', t) → run_log config st r t.
Proof.
  intros Hrun. apply (wp_run _ _ (λ r _ t, run_log config st r t) _ _ _ Hrun).
  clear Hrun. rewrite validate_config_eq.
  apply wp_bind, wp_logged_extern. intros res h.
  unfold upgrade_config_dict_to_latest_version.
  destruct (upgrade_doc (deref (heap st) config)) as [e|d] eqn:Hup;
    intros [= <- <-]; simpl; [by apply upgrade_raises|].
  fold (new_loc st).
  apply wp_bind, wp_logged_eval. simpl. rewrite deref_insert.
  destruct (dict_get d MODEL_TYPE (VStr MODEL_ECD)) as [e|model_type] eqn:Hmt; simpl;
    [by eapply model_type_raises|].
  apply wp_bind, wp_logged_eval. simpl. rewrite deref_insert.
  fold (split_section d).
  destruct (split_section d) as [e|split] eqn:Hsplit; simpl;
    [by eapply split_read_raises|].
  apply wp_bind, wp_logged_eval.
  destruct (get_splitter_kwargs split) as [e|splitter] eqn:Hsplitter; simpl;
    [by eapply get_splitter_raises|].
  apply wp_bind, wp_logged_extern. intros [e|[]] h2 Hvalidate; simpl;
    [by eapply splitter_validate_raises|].
  apply wp_bind, wp_with_VALIDATION_LOCK; simpl; intros Hlock;
    [by eapply lock_held|].
  apply wp_bind, wp_get_schema. intros [schema|e|] st3 _ ? _; [| |done]; simpl;
    [|by eapply get_schema_raises].
  apply wp_bind, wp_get_validator. intros cls st4 _ _ _ _.
  apply wp_logged_extern. intros [e|[]] h5 _; simpl;
    [by eapply validate_raises|].
  apply wp_run_checks. intros r2 st6 t2 _ _ [[-> ->]|Hraise].
  - by eapply returns.
  - destruct Hraise as (before & c & after & e & Hsplit' & -> & ->).
    by eapply check_raises.
Qed.

End PipelineFacts.

(** ** Logs *)

(** Takes apart a hypothesis [ev ∈ t] for a log [t] that is written out. *)
Ltac in_log Hin :=
  unfold before_lock, locked_block, ok in Hin;
  repeat first
    [ apply elem_of_nil in Hin; destruct Hin
    | apply elem_of_cons in Hin as [Hin|Hin]; [simplify_eq|]
    | apply elem_of_app in Hin as [Hin|Hin]
    | apply list_elem_of_fmap in Hin as (? & Hin & ?); simplify_eq ].

(** Finds an event in a log that is written out. *)
Ltac log_elem :=
  unfold before_lock, locked_block, ok; simpl;
  repeat first [apply list_elem_of_here | apply list_elem_of_further].

(** Two results of the same expression are the same. *)
Ltac same_results :=
  repeat match goal with
  | H1 : ?x = inr _, H2 : ?x = _ |- _ => rewrite H1 in H2; simplify_eq
  | H1 : ?x = inl _, H2 : ?x = _ |- _ => rewrite H1 in H2; simplify_eq
  end.

Section LogFacts.

Lemma calls_app t1 t2 : calls (t1 ++ t2) = calls t1 ++ calls t2.
Proof. apply omap_app. Qed.

Lemma stages_app t1 t2 : stages (t1 ++ t2) = stages t1 ++ stages t2.
Proof. unfold stages. by rewrite calls_app, fmap_app. Qed.

Lemma checks_run_app t1 t2 : checks_run (t1 ++ t2) = checks_run t1 ++ checks_run t2.
Proof. apply omap_app. Qed.

Lemma stages_passed cs l : stages (passed cs l) = check_stage <$> cs.
Proof. induction cs as [|c cs IH]; [done|]. unfold stages, passed in *. simpl. by f_equal. Qed.

Lemma checks_run_passed cs l : checks_run (passed cs l) = cs.
Proof. induction cs as [|c cs IH]; [done|]. unfold checks_run, passed in *. simpl. by f_equal. Qed.

Lemma under_lock_passed cs l t : under_lock false (passed cs l ++ t) = under_lock false t.
Proof. induction cs as [|c cs IH]; [done|]. simpl. by rewrite IH. Qed.

Lemma outside_lock_passed cs l t :
  outside_lock false (passed cs l ++ t)
  = ((λ c, check_call c l) <$> cs) ++ outside_lock false t.
Proof. induction cs as [|c cs IH]; [done|]. simpl. by rewrite IH. Qed.

Lemma checks_run_nil t c l o : checks_run t = [] → Ev (check_call c l) o ∉ t.
Proof.
  intros Hnil Hin.
  assert (c ∈ checks_run t) as Hc.
  { unfold checks_run. apply list_elem_of_omap. by eexists. }
  rewrite Hnil in Hc. by apply elem_of_nil in Hc.
Qed.

(** A log that starts with events that are not checks: its first check
    comes after them. *)
Lemma split_at_check front rest t1 c l o t2 :
  checks_run front = [] →
  front ++ rest = t1 ++ Ev (check_call c l) o :: t2 →
  ∃ t1', t1 = front ++ t1' ∧ rest = t1' ++ Ev (check_call c l) o :: t2.
Proof.
  revert t1. induction front as [|ev front IH]; intros t1 Hfront Heq.
  - by exists t1.
  - destruct t1 as [|ev' t1]; simpl in Heq; injection Heq as -> Heq.
    { unfold checks_run in Hfront. by simpl in Hfront. }
    assert (checks_run front = []) as Hfront'.
    { unfold checks_run in *. simpl in Hfront.
      destruct ev' as [[] ?| |]; simpl in Hfront; done. }
    destruct (IH _ Hfront' Heq) as (t1' & -> & ->). by exists t1'.
Qed.

End LogFacts.

Section OrderFacts.
Context `{Collaborators}.

(** C1, as amended: for every document on which no stage before the
    structural validation raises, the structural validator is called,
    and structural validation runs before any semantic check: when the
    structural validator raises, its error is the one [validate_config]
    raises and no semantic check is called, whatever the checks would
    have found; and a semantic check is called only after the
    structural validation of the same document has returned. *)
Theorem structural_violation_reported_first config st r st' t :
  validate_config config st = (r, st', t) →
  (∀ instance schema cls e,
     Ev (validate_call instance schema cls) (Some e) ∈ t →
     r = Raise e ∧ checks_run t = [])
  ∧ (∀ t1 c l o t2,
       t = t1 ++ Ev (check_call c l) o :: t2 →
       ∃ schema cls, Ev (validate_call l schema cls) None ∈ t1)
  ∧ ((∀ c e, Ev c (Some e) ∈ t →
        stage_of c = validate_stage ∨ ∃ check, stage_of c = check_stage check) →
     r ≠ Blocked →
     ∃ instance schema cls o, Ev (validate_call instance schema cls) o ∈ t).
Proof.
  intros Hrun. apply validate_config_run_log in Hrun.
  split; [|split]; [| |intros Hearlier Hblocked].
  3:{ destruct Hrun; try done;
        try (exfalso; edestruct Hearlier as [Hs|[? Hs]];
             [unfold before_lock, ok;
              repeat first [apply list_elem_of_here | apply list_elem_of_further]
             |done..]);
        eexists _, _, _, _; unfold before_lock, locked_block, ok;
        do 8 apply list_elem_of_further; apply list_elem_of_here. }
  - intros instance schema cls e Hin.
    destruct Hrun; in_log Hin; done.
  - intros t1 c l o t2 Ht.
    assert (Ev (check_call c l) o ∈ t) as Hin by (rewrite Ht; set_solver).
    destruct Hrun; try (by in_log Hin); clear Hin.
    + rewrite app_assoc in Ht.
      apply split_at_check in Ht as (t1' & -> & Ht); [|done].
      assert (Ev (check_call c l) o
              ∈ passed before (new_loc st) ++ [Ev (check_call c0 (new_loc st)) (Some e)])
        as Hin by (rewrite Ht; set_solver).
      unfold passed in Hin. in_log Hin; exists schema, cls; set_solver.
    + rewrite app_assoc in Ht.
      apply split_at_check in Ht as (t1' & -> & Ht); [|done].
      assert (Ev (check_call c l) o ∈ passed semantic_checks (new_loc st))
        as Hin by (rewrite Ht; set_solver).
      unfold passed in Hin. in_log Hin; exists schema, cls; set_solver.
Qed.

(** C2, as amended: for every upgraded document whose structural
    validation has returned, [validate_config] calls the sixteen
    semantic checks on it in their fixed order; the first check that
    raises ends the run, no later check is called and its error is the
    one raised; when no check raises, [validate_config] returns, with no
    value. *)
Theorem semantic_checks_in_order_first_failure config st r st' t :
  validate_config config st = (r, st', t) →
  (∃ instance schema cls, Ev (validate_call instance schema cls) None ∈ t) →
  semantic_checks
  = [check_validation_metrics_are_valid; check_feature_names_unique;
     check_tied_features_are_valid; check_dependent_features;
     check_training_runway; check_gbm_horovod_incompatibility;
     check_gbm_feature_types; check_ray_backend_in_memory_preprocessing;
     check_sequence_concat_combiner_requirements;
     check_tabtransformer_combiner_requirements;
     check_comparator_combiner_requirements;
     check_class_balance_preprocessing; check_sampling_exclusivity;
     check_hyperopt_search_space; check_hyperopt_metric_targets;
     check_gbm_single_output_feature]
  ∧ ∃ front updated_config schema cls,
      checks_run front = []
      ∧ Ev (validate_call updated_config schema cls) None ∈ front
      ∧ (r = Ret () ∧ t = front ++ passed semantic_checks updated_config
         ∨ ∃ before c after e,
             semantic_checks = before ++ c :: after
             ∧ r = Raise e
             ∧ t = front ++ passed before updated_config
                   ++ [Ev (check_call c updated_config) (Some e)]).
Proof.
  intros Hrun (instance & schema' & cls' & Hin). split; [done|].
  apply validate_config_run_log in Hrun.
  destruct Hrun; try (by in_log Hin); clear Hin.
  - exists (before_lock config (new_loc st) split
            ++ locked_block (new_loc st) model_type schema cls),
      (new_loc st), schema, cls.
    split; [done|]. split; [set_solver|]. right.
    exists before, c, after, e. by rewrite <- app_assoc.
  - exists (before_lock config (new_loc st) split
            ++ locked_block (new_loc st) model_type schema cls),
      (new_loc st), schema, cls.
    split; [done|]. split; [set_solver|]. left.
    by rewrite <- app_assoc.
Qed.

(** C4, as amended: split validation — reading [preprocessing.split]
    ([{}] when absent), [get_splitter] and the splitter's [validate] on
    the upgraded document — comes after the upgrade and after the read
    of [model_type] ([MODEL_ECD] when absent), and before [get_schema]
    and the structural validation; when the read, [get_splitter] or the
    splitter's [validate] raises, that is the error of [validate_config]
    and neither [get_schema] nor the structural validation is called. *)
Theorem split_validation_after_model_type_read config st r st' t :
  validate_config config st = (r, st', t) →
  stages t `prefix_of` pipeline
  ∧ (∀ d kwargs o,
       upgrade_doc (deref (heap st) config) = inr d →
       Ev (get_splitter_call kwargs) o ∈ t →
       split_section d = inr kwargs)
  ∧ (∀ d model_type o,
       upgrade_doc (deref (heap st) config) = inr d →
       Ev (get_schema_call model_type) o ∈ t →
       dict_get d MODEL_TYPE (VStr MODEL_ECD) = inr model_type)
  ∧ (∀ c e,
       stage_of c ∈ [split_read_stage; get_splitter_stage; splitter_validate_stage] →
       Ev c (Some e) ∈ t →
       r = Raise e
       ∧ (get_schema_stage ∉ stages t)
       ∧ (validate_stage ∉ stages t))
  ∧ (split_read_stage ∈ stages t →
     happens_before upgrade_stage split_read_stage t
     ∧ happens_before model_type_stage split_read_stage t)
  ∧ (get_schema_stage ∈ stages t →
     happens_before splitter_validate_stage get_schema_stage t)
  ∧ (validate_stage ∈ stages t →
     happens_before splitter_validate_stage validate_stage t).
Proof.
  intros Hrun. apply validate_config_run_log in Hrun.
  split; [|split; [|split; [|split]]].
  - destruct Hrun as [| | | | | | | |? ? ? ? ? before c after e _ _ _ _ Hchecks|];
      try (unfold pipeline; simpl; by eexists).
    rewrite !stages_app, stages_passed. unfold pipeline. rewrite Hchecks.
    rewrite fmap_app. simpl. exists (check_stage <$> after).
    simpl. by rewrite <- app_assoc.
  - intros d' kwargs o Hd Hin.
    destruct Hrun; in_log Hin; congruence.
  - intros d' model_type' o Hd Hin.
    destruct Hrun; unfold passed in Hin; in_log Hin; congruence.
  - intros c e Hstage Hin.
    destruct Hrun; in_log Hin; try (by in_log Hstage);
      (split; [done|]; split; intros Hs; unfold stages in Hs; simpl in Hs;
       by in_log Hs).
  - destruct Hrun; unfold happens_before, first_at, stages; simpl;
      (split; [|split]); intros Hs; try (by in_log Hs); try split; lia.
Qed.

End OrderFacts.


Section StateFacts.
Context `{Collaborators}.

Lemma module_step_heap st h t :
  (∀ instance schema cls o, Ev (validate_call instance schema cls) o ∉ t) →
  module_step st (set_heap h st) t.
Proof.
  intros Ht. unfold module_step. simpl.
  split; [done|]. split; [done|]. split; [done|]. split; [lia|]. split; [done|].
  intros ???? Hin. by apply Ht in Hin.
Qed.

Lemma module_step_log st st' t t' :
  (∀ instance schema cls o,
     Ev (validate_call instance schema cls) o ∈ t' →
     Ev (validate_call instance schema cls) o ∈ t) →
  module_step st st' t → module_step st st' t'.
Proof.
  intros Ht (?&?&?&?&?&Hcls).
  split; [done|]. split; [done|]. split; [done|]. split; [done|]. split; [done|].
  intros ???? Hin. eapply Hcls, Ht, Hin.
Qed.

Lemma module_step_set_heap st st' h t :
  module_step st st' t → module_step st (set_heap h st') t.
Proof. done. Qed.

Lemma validate_config_module_step config st r st' t :
  validate_config config st = (r, st', t) → module_step st st' t.
Proof.
  intros Hrun. apply (wp_run _ _ (λ _ st' t, module_step st st' t) _ _ _ Hrun).
  clear Hrun. rewrite validate_config_eq.
  apply wp_bind, wp_logged_extern. intros res h1 _.
  destruct res as [e|updated_config]; simpl;
    [apply module_step_heap; intros ???? Hin; by in_log Hin|].
  apply wp_bind, wp_logged_eval.
  destruct (dict_get _ _ _) as [e|model_type]; simpl;
    [apply module_step_heap; intros ???? Hin; by in_log Hin|].
  apply wp_bind, wp_logged_eval.
  match goal with |- context [of_result ?x] => destruct x as [e|split] end; simpl;
    [apply module_step_heap; intros ???? Hin; by in_log Hin|].
  apply wp_bind, wp_logged_eval.
  destruct (get_splitter_kwargs split) as [e|splitter]; simpl;
    [apply module_step_heap; intros ???? Hin; by in_log Hin|].
  apply wp_bind, wp_logged_extern. intros [e|[]] h2 _; simpl;
    rewrite set_heap_set_heap;
    [apply module_step_heap; intros ???? Hin; by in_log Hin|].
  apply wp_bind, wp_with_VALIDATION_LOCK; simpl; intros Hlock;
    [apply module_step_heap; intros ???? Hin; by in_log Hin|].
  apply wp_bind, wp_get_schema. intros r3 st3 Hschema Hr3 Hst3.
  assert (schema_cache_sound st → schema_cache_sound st3) as Hsound3.
  { intros Hsound.
    by destruct (get_schema_run _ (set_lock true (set_heap h2 st)) _ _ _ Hsound Hschema)
      as (_&_&_&_&_&?&_). }
  destruct r3 as [schema|e|]; [| |done]; simpl.
  2:{ unfold module_step. rewrite Hst3 in Hsound3 |- *. simpl.
      split; [done|]. split; [done|].
      split; [done|]. split; [lia|]. split; [done|].
      intros ???? Hin. by in_log Hin. }
  apply wp_bind, wp_get_validator. intros cls st4 Hvalidator _ _ _.
  apply wp_logged_extern. intros res5 h5 _.
  assert (module_step st (set_lock false (set_heap h5 st4))
            [Ev (validate_call updated_config schema cls) (error_of res5)]) as Hstep.
  { rewrite get_validator_run in Hvalidator.
    assert (get_validator_cache st3 = get_validator_cache st) as Hcache3
      by (by rewrite Hst3).
    assert (classes_created st3 = classes_created st) as Hclasses3
      by (by rewrite Hst3).
    destruct (get_validator_cache st3) as [cached|] eqn:Hcache;
      simpl in Hvalidator; injection Hvalidator as <- <-.
    - unfold module_step. simpl.
      split; [done|]. split; [exact Hsound3|].
      split; [|split; [rewrite Hclasses3; lia|split]].
      + intros Hsound cls' Hcls'. simpl in Hcls'.
        rewrite Hcache in Hcls'. injection Hcls' as <-.
        destruct (Hsound cached (eq_sym Hcache3)) as [? ?].
        split; [done|]. simpl. by rewrite Hclasses3.
      + intros cls' Hcls'. rewrite <- Hcache3 in Hcls'. by injection Hcls' as <-.
      + intros ???? Hin. by in_log Hin.
    - unfold module_step. simpl.
      split; [done|]. split; [exact Hsound3|].
      split; [|split; [rewrite Hclasses3; lia|split]].
      + intros _ cls' [= <-]. simpl. split; [done|]. lia.
      + intros cls' Hcls'. by rewrite <- Hcache3 in Hcls'.
      + intros ???? Hin. by in_log Hin. }
  destruct res5 as [e|[]]; simpl.
  - eapply module_step_log; [|exact Hstep].
    intros ???? Hin. in_log Hin. set_solver.
  - apply wp_run_checks. intros r6 st6 t6 _ Hst6 Ht6.
    rewrite Hst6. apply module_step_set_heap.
    eapply module_step_log; [|exact Hstep].
    intros ???? Hin.
    destruct Ht6 as [[_ ->]|(before & c & after & e & _ & _ & ->)];
      unfold passed, ok in Hin; in_log Hin; set_solver.
Qed.

End StateFacts.

Section LockAndFrameFacts.
Context `{Collaborators}.

Lemma lock_ops_passed cs l t : lock_ops (passed cs l ++ t) = lock_ops t.
Proof. induction cs as [|c cs IH]; [done|]. simpl. by rewrite IH. Qed.

(** C8, as amended: [validate_config] takes [VALIDATION_LOCK] at most
    once and releases it whether the block returns or raises, so that it
    leaves the lock as it found it; it holds the lock during
    [get_schema], [get_validator] and the structural validation, in
    this order, and during nothing else: the upgrade, the read of
    [model_type], the split validation and the semantic checks run
    outside the lock.  It waits only for a lock that another holder has. *)
Theorem lock_held_from_get_schema_to_validate config st r st' t :
  validate_config config st = (r, st', t) →
  VALIDATION_LOCK st' = VALIDATION_LOCK st
  ∧ (r = Blocked → VALIDATION_LOCK st = true ∧ lock_ops t = [])
  ∧ (lock_ops t = [] ∨ lock_ops t = [Acquire; Release])
  ∧ (stage_of <$> under_lock false t)
    `prefix_of` [get_schema_stage; get_validator_stage; validate_stage]
  ∧ (∀ c, c ∈ outside_lock false t →
       stage_of c ∈ [upgrade_stage; model_type_stage; split_read_stage;
                     get_splitter_stage; splitter_validate_stage]
       ∨ ∃ check, stage_of c = check_stage check).
Proof.
  intros Hrun.
  destruct (validate_config_module_step _ _ _ _ _ Hrun) as (Hlock' & _).
  apply validate_config_run_log in Hrun.
  split; [exact Hlock'|].
  destruct Hrun;
    unfold before_lock, locked_block, ok; simpl;
    rewrite ?under_lock_passed, ?outside_lock_passed, ?lock_ops_passed; simpl;
    (split; [first [by intros [=] | by intros _]|]);
    (split; [by eauto|]);
    (split; [by eexists|]);
    intros c' Hin; in_log Hin; try (left; set_solver); right; by eexists.
Qed.

Lemma run_checks_frame cs updated_config st r st' t :
  (∀ c, keeps_to (auxiliary_validation c)) →
  run_checks cs updated_config st = (r, st', t) →
  ∀ l, l ≠ updated_config → heap st' !! l = heap st !! l.
Proof.
  intros Hkeep. revert st t. induction cs as [|c cs IH]; intros st t.
  - by intros [= <- <- <-].
  - rewrite run_checks_cons. unfold mbind, M_bind, bind. rewrite run_check_run.
    pose proof (Hkeep c updated_config (heap st)) as Hc.
    destruct (auxiliary_validation _ _ _) as [[e|[]] h]; simpl in *.
    + intros [= <- <- <-] l Hl. by apply Hc.
    + destruct (run_checks cs updated_config (set_heap h st)) as [[r2 st2] t2] eqn:Hrest.
      intros [= <- <- <-] l Hl. rewrite (IH _ _ Hrest l Hl). by apply Hc.
Qed.

Lemma new_loc_fresh st : heap st !! new_loc st = None.
Proof. unfold new_loc. apply (not_elem_of_dom (D:=gset loc)). apply is_fresh. Qed.

(** C7: when the calls that are given the upgraded document change no
    other object, [validate_config] leaves every object of the caller
    as it was, the document it is given among them, whether it returns
    or raises: the upgrade makes a new object, and every later stage is
    given that one. *)
Theorem caller_document_unchanged config st r st' t :
  change_their_argument_only →
  validate_config config st = (r, st', t) →
  (∀ l, is_Some (heap st !! l) → heap st' !! l = heap st !! l)
  ∧ (∀ c o l,
       Ev c o ∈ t → document_of c = Some l →
       c = upgrade_call config ∨ l = new_loc st ∧ heap st !! l = None).
Proof.
  intros (Hsplitter & Hvalidate & Hchecks) Hrun. split.
  - intros l Hl.
    assert (l ≠ new_loc st) as Hne.
    { intros ->. rewrite new_loc_fresh in Hl. by destruct Hl. }
    apply (wp_run _ _ (λ _ st' _, heap st' !! l = heap st !! l) _ _ _ Hrun).
    clear Hrun. rewrite validate_config_eq.
    apply wp_bind, wp_logged_extern. intros res h1.
    unfold upgrade_config_dict_to_latest_version.
    destruct (upgrade_doc _) as [e|d]; intros [= <- <-]; simpl; [done|].
    fold (new_loc st).
    assert (<[new_loc st:=d]> (heap st) !! l = heap st !! l) as Hh1
      by (by rewrite lookup_insert_ne).
    apply wp_bind, wp_logged_eval.
    destruct (dict_get _ _ _) as [e|model_type]; simpl; [done|].
    apply wp_bind, wp_logged_eval.
    match goal with |- context [of_result ?x] => destruct x as [e|split] end;
      simpl; [done|].
    apply wp_bind, wp_logged_eval.
    destruct (get_splitter_kwargs split) as [e|splitter]; simpl; [done|].
    apply wp_bind, wp_logged_extern. intros res h2 Hh2.
    assert (h2 !! l = heap st !! l) as Hh2'.
    { rewrite <- Hh1. simpl in Hh2.
      pose proof (Hsplitter splitter (new_loc st) (<[new_loc st:=d]> (heap st)) l Hne)
        as Hk.
      by rewrite Hh2 in Hk. }
    destruct res as [e|[]]; simpl; [done|].
    apply wp_bind, wp_with_VALIDATION_LOCK; simpl; intros Hlock; [done|].
    apply wp_bind, wp_get_schema. intros r3 st3 _ Hr3 Hst3.
    assert (heap st3 = h2) as Hh3 by (by rewrite Hst3).
    destruct r3 as [schema|e|]; [| |done]; simpl; [|by rewrite Hh3].
    apply wp_bind, wp_get_validator. intros cls st4 _ Hh4 _ _.
    apply wp_logged_extern. intros res h5 Hh5.
    assert (h5 !! l = heap st !! l) as Hh5'.
    { rewrite <- Hh2'. pose proof (Hvalidate schema cls (new_loc st) (heap st4) l Hne) as Hk.
      cbv beta in Hk. rewrite Hh5 in Hk. simpl in Hk. by rewrite Hk, Hh4, Hh3. }
    destruct res as [e|[]]; simpl; [done|].
    apply wp_run_checks. intros r6 st6 t6 Hchecks_run _ _.
    by rewrite (run_checks_frame _ _ _ _ _ _ Hchecks Hchecks_run l Hne).
  - intros c o l Hin Hdoc. apply validate_config_run_log in Hrun.
    pose proof (new_loc_fresh st) as Hfresh.
    destruct Hrun; unfold passed in Hin; in_log Hin; simpl in Hdoc;
      simplify_eq; by eauto.
Qed.

(** C9: [get_validator] is memoized: however often it is called, every
    call returns the same class and at most one class is made; a run of
    [validate_config] makes at most one class, leaves the class it
    validated with in the cache, and validates with the cached class
    when there is one. *)
Theorem get_validator_memoized n st :
  (∃ cls st',
     repeatedly n get_validator st
     = (Ret (replicate n cls), st', replicate n (Ev get_validator_call None))
     ∧ (classes_created st' ≤ S (classes_created st))%nat
     ∧ (∀ cached, get_validator_cache st = Some cached → cls = cached ∧ st' = st)
     ∧ (n ≠ 0%nat → get_validator_cache st' = Some cls))
  ∧ (∀ config r st' t,
       validate_config config st = (r, st', t) →
       (classes_created st' ≤ S (classes_created st))%nat
       ∧ (∀ instance schema cls o,
            Ev (validate_call instance schema cls) o ∈ t →
            get_validator_cache st' = Some cls)
       ∧ (∀ cached,
            get_validator_cache st = Some cached →
            get_validator_cache st' = Some cached
            ∧ classes_created st' = classes_created st)).
Proof.
  split; [|intros config r st' t Hrun;
           destruct (validate_config_module_step _ _ _ _ _ Hrun)
             as (_ & _ & _ & Hclasses & Hcached & Hcls);
           split; [lia|]; split; [exact Hcls|exact Hcached]].
  destruct (get_validator_cache st) as [cached|] eqn:Hcache.
  - exists cached, st. rewrite (repeatedly_get_validator_cached _ _ _ Hcache).
    split; [done|]. split; [lia|]. split; [|done].
    by intros ? [= ->].
  - destruct n as [|n].
    + exists Draft7Validator, st. simpl. split; [done|]. split; [lia|]. done.
    + set (cls := extend Draft7Validator extended_type_checker (S (classes_created st))).
      exists cls, (set_validator_cache cls st). simpl.
      unfold mbind, M_bind, bind. rewrite get_validator_run, Hcache.
      cbv beta iota zeta. fold cls. rewrite (repeatedly_get_validator_cached n cls) by done.
      unfold ret. simpl. rewrite app_nil_r.
      split; [done|]. split; [lia|]. done.
Qed.


End LockAndFrameFacts.

(** ** The cache of [get_schema] *)

Section CacheFacts.
Context `{Collaborators}.

Lemma set_schema_cache_set_schema_cache c c' st :
  set_schema_cache c (set_schema_cache c' st) = set_schema_cache c st.
Proof. done. Qed.

Lemma cache_remove_cons_eq key schema cache :
  cache_remove key ((key, schema) :: cache) = cache_remove key cache.
Proof.
  unfold cache_remove. rewrite filter_cons_False; [done|].
  simpl. by rewrite ValueFacts.eqb_refl.
Qed.

Lemma cache_remove_absent key cache :
  cache_find key cache = None → cache_remove key cache = cache.
Proof.
  induction cache as [|[k v] cache IH]; simpl; [done|].
  destruct (Value.eqb k key) eqn:Hk; [done|]. intros Hfind.
  unfold cache_remove. rewrite filter_cons_True by done.
  f_equal. by apply IH.
Qed.

Lemma cache_find_remove key cache : cache_find key (cache_remove key cache) = None.
Proof.
  induction cache as [|[k v] cache IH]; simpl; [done|].
  unfold cache_remove. destruct (Value.eqb k key) eqn:Hk.
  - rewrite filter_cons_False; [done|]. simpl. by rewrite Hk.
  - rewrite filter_cons_True by done. simpl. by rewrite Hk.
Qed.

Lemma cache_find_take_None key n cache :
  cache_find key cache = None → cache_find key (take n cache) = None.
Proof.
  revert n. induction cache as [|[k v] cache IH]; intros [|n]; simpl; try done.
  destruct (Value.eqb k key); [done|]. apply IH.
Qed.

Lemma cache_remove_shorter key cache schema :
  cache_find key cache = Some schema →
  (length (cache_remove key cache) < length cache)%nat.
Proof.
  induction cache as [|[k v] cache IH]; simpl; [done|].
  unfold cache_remove. destruct (Value.eqb k key) eqn:Hk.
  - intros _. rewrite filter_cons_False by (simpl; by rewrite Hk).
    pose proof (length_filter (λ kv : value * value, Value.eqb kv.1 key = false) cache).
    lia.
  - intros Hfind. rewrite filter_cons_True by done. simpl.
    specialize (IH Hfind). unfold cache_remove in IH. lia.
Qed.

(** What a call of [get_schema] does to its cache, in any state. *)
Lemma get_schema_outcome model_type st r st' t :
  get_schema model_type st = (r, st', t) →
  t = [Ev (get_schema_call model_type) (raised r)]
  ∧ st' = set_schema_cache (get_schema_cache st') st
  ∧ (schema_cache_bounded st → schema_cache_bounded st')
  ∧ match r with
    | Ret schema =>
        Value.hashable model_type = true
        ∧ ∃ rest,
            get_schema_cache st' = (model_type, schema) :: rest
            ∧ cache_find model_type rest = None
            ∧ (rest = cache_remove model_type (get_schema_cache st)
               ∧ cache_find model_type (get_schema_cache st) = Some schema
               ∨ rest = take 1 (get_schema_cache st)
                 ∧ cache_find model_type (get_schema_cache st) = None
                 ∧ get_schema_uncached model_type = inr schema)
    | Raise e =>
        st' = st
        ∧ (Value.hashable model_type = false ∧ e = TypeError "unhashable type"
           ∨ Value.hashable model_type = true ∧ get_schema_uncached model_type = inl e)
    | Blocked => False
    end.
Proof.
  unfold get_schema, logged, schema_cache_bounded.
  destruct (Value.hashable model_type) eqn:Hhash; simpl.
  - destruct (cache_find model_type (get_schema_cache st)) as [schema|] eqn:Hfind.
    + intros [= <- <- <-]. simpl.
      split; [done|]. split; [by destruct st|]. split.
      { pose proof (cache_remove_shorter _ _ _ Hfind). lia. }
      split; [done|]. eexists. split; [done|].
      split; [apply cache_find_remove|]. by left.
    + destruct (get_schema_uncached model_type) as [e|schema] eqn:Hbody;
        intros [= <- <- <-]; simpl.
      * split; [done|]. split; [by destruct st|]. split; [done|]. split; [done|].
        by right.
      * split; [done|]. split; [by destruct st|]. split.
        { intros _. rewrite length_take. lia. }
        split; [done|]. eexists. split; [done|].
        split; [by apply cache_find_take_None|]. by right.
  - intros [= <- <- <-]. simpl.
    split; [done|]. split; [by destruct st|]. split; [done|]. split; [done|].
    by left.
Qed.

(** X1: the cache of [get_schema] cannot be observed in its results:
    for a hashable model type, a call returns what the body of the
    function gives for it, schema or exception, whatever the cache
    holds. *)
Theorem get_schema_cache_transparent model_type st :
  schema_cache_sound st →
  Value.hashable model_type = true →
  (get_schema model_type st).1.1 = of_result (get_schema_uncached model_type).
Proof.
  intros Hsound Hhash.
  destruct (get_schema model_type st) as [[r st'] t] eqn:Hrun. simpl.
  destruct (get_schema_run _ _ _ _ _ Hsound Hrun) as (_ & _ & _ & _ & _ & _ & Hr).
  destruct r as [schema|e|]; [by rewrite Hr| |done].
  destruct Hr as (_ & [->|[? _]]); [done|congruence].
Qed.

(** X2: a call of [get_schema] for the model type of the call before
    it, passed the same way, is served from the cache: after the first
    call the cache holds the schema it returned for that model type,
    and the second call returns that schema and leaves the state as it
    is without running the body: it does so whatever the fragment
    providers would give by then. *)
Theorem get_schema_again_changes_nothing model_type st schema st' t :
  get_schema model_type st = (Ret schema, st', t) →
  cache_find model_type (get_schema_cache st') = Some schema
  ∧ get_schema model_type st' = (Ret schema, st', t)
  ∧ (∀ providers : Collaborators,
       @get_schema providers model_type st' = (Ret schema, st', t)).
Proof.
  intros Hrun.
  destruct (get_schema_outcome _ _ _ _ _ Hrun)
    as (-> & _ & _ & Hhash & rest & Hcache & Hrest & _).
  assert (∀ providers : Collaborators,
            @get_schema providers model_type st'
            = (Ret schema, st', [Ev (get_schema_call model_type) None])) as Hagain.
  { intros providers. unfold get_schema, logged. rewrite Hhash, Hcache. simpl.
    rewrite ValueFacts.eqb_refl, cache_remove_cons_eq, cache_remove_absent by done.
    rewrite <- Hcache. by destruct st'. }
  split; [|split; [apply Hagain|exact Hagain]].
  rewrite Hcache. simpl. by rewrite ValueFacts.eqb_refl.
Qed.

Lemma get_schema_twice a b sa sb st st1 st2 t1 t2 :
  schema_cache_bounded st →
  Value.eqb a b = false →
  get_schema a st = (Ret sa, st1, t1) →
  get_schema b st1 = (Ret sb, st2, t2) →
  get_schema_cache st2 = [(b, sb); (a, sa)].
Proof.
  intros Hbound Hab Hrun1 Hrun2.
  destruct (get_schema_outcome _ _ _ _ _ Hrun1)
    as (_ & _ & Hbound1 & _ & rest1 & Hcache1 & _ & _).
  specialize (Hbound1 Hbound). unfold schema_cache_bounded in Hbound1.
  rewrite Hcache1 in Hbound1. simpl in Hbound1.
  destruct (get_schema_outcome _ _ _ _ _ Hrun2)
    as (_ & _ & _ & _ & rest2 & -> & _ & Hrest2).
  f_equal. rewrite Hcache1 in Hrest2. simpl in Hrest2. rewrite Hab in Hrest2.
  destruct Hrest2 as [[-> Hfind]|[-> _]]; [|done].
  unfold cache_remove. rewrite filter_cons_True by done. f_equal.
  destruct rest1 as [|[k v] [|? ?]]; simpl in *; [done| |lia].
  destruct (Value.eqb k b) eqn:Hk; [|done].
  by rewrite filter_cons_False by (simpl; by rewrite Hk).
Qed.

(** X3: [get_schema] keeps the schemas of the two model types it was
    last called for: after calls for three different model types that
    returned, the model type passed the same way in each, the schemas
    of the last two are in the cache, the most recent first, and the
    one of the first is not: a further call for it builds its schema
    again. *)
Theorem get_schema_evicts_least_recently_used a b c sa sb sc st st1 st2 st3 t1 t2 t3 :
  schema_cache_bounded st →
  a ≠ b → a ≠ c → b ≠ c →
  get_schema (VStr a) st = (Ret sa, st1, t1) →
  get_schema (VStr b) st1 = (Ret sb, st2, t2) →
  get_schema (VStr c) st2 = (Ret sc, st3, t3) →
  get_schema_cache st2 = [(VStr b, sb); (VStr a, sa)]
  ∧ get_schema_cache st3 = [(VStr c, sc); (VStr b, sb)]
  ∧ cache_find (VStr a) (get_schema_cache st3) = None.
Proof.
  intros Hbound Hab Hac Hbc Hrun1 Hrun2 Hrun3.
  assert (get_schema_cache st2 = [(VStr b, sb); (VStr a, sa)]) as Hcache2.
  { eapply get_schema_twice; [exact Hbound| |exact Hrun1|exact Hrun2].
    simpl. by apply bool_decide_eq_false. }
  assert (schema_cache_bounded st1) as Hbound1.
  { by apply (get_schema_outcome _ _ _ _ _ Hrun1). }
  assert (get_schema_cache st3 = [(VStr c, sc); (VStr b, sb)]) as Hcache3.
  { eapply get_schema_twice; [exact Hbound1| |exact Hrun2|exact Hrun3].
    simpl. by apply bool_decide_eq_false. }
  split; [exact Hcache2|]. split; [exact Hcache3|].
  rewrite Hcache3. simpl.
  rewrite !bool_decide_eq_false_2; [done|congruence..].
Qed.

(** X4: a call of [get_schema] leaves at most two schemas in the
    cache and changes nothing else; a call that raises changes nothing
    at all: an exception is not kept. *)
Theorem get_schema_keeps_at_most_two model_type st r st' t :
  schema_cache_bounded st →
  get_schema model_type st = (r, st', t) →
  schema_cache_bounded st'
  ∧ st' = set_schema_cache (get_schema_cache st') st
  ∧ (∀ e, r = Raise e → st' = st)
  ∧ r ≠ Blocked.
Proof.
  intros Hbound Hrun.
  destruct (get_schema_outcome _ _ _ _ _ Hrun) as (_ & Hst' & Hbound' & Hr).
  split; [by apply Hbound'|]. split; [exact Hst'|].
  split; [|by intros ->]. intros e ->. by destruct Hr.
Qed.

End CacheFacts.

Section CacheStepFacts.
Context `{Collaborators}.

Lemma cache_step_heap st h t :
  (∀ model_type o, Ev (get_schema_call model_type) o ∉ t) →
  cache_step st (set_heap h st) t.
Proof.
  intros Ht. unfold cache_step. simpl.
  split; [done|]. split; [done|].
  split; [intros ?? Hin; by apply Ht in Hin|].
  split; [intros ? Hin; by apply Ht in Hin|]. done.
Qed.

Lemma validate_config_cache_step config st r st' t :
  validate_config config st = (r, st', t) → cache_step st st' t.
Proof.
  intros Hrun. apply (wp_run _ _ (λ _ st' t, cache_step st st' t) _ _ _ Hrun).
  clear Hrun. rewrite validate_config_eq.
  apply wp_bind, wp_logged_extern. intros res h1 _.
  destruct res as [e|updated_config]; simpl;
    [apply cache_step_heap; intros ?? Hin; by in_log Hin|].
  apply wp_bind, wp_logged_eval.
  destruct (dict_get _ _ _) as [e|model_type]; simpl;
    [apply cache_step_heap; intros ?? Hin; by in_log Hin|].
  apply wp_bind, wp_logged_eval.
  match goal with |- context [of_result ?x] => destruct x as [e|split] end; simpl;
    [apply cache_step_heap; intros ?? Hin; by in_log Hin|].
  apply wp_bind, wp_logged_eval.
  destruct (get_splitter_kwargs split) as [e|splitter]; simpl;
    [apply cache_step_heap; intros ?? Hin; by in_log Hin|].
  apply wp_bind, wp_logged_extern. intros [e|[]] h2 _; simpl;
    rewrite set_heap_set_heap;
    [apply cache_step_heap; intros ?? Hin; by in_log Hin|].
  apply wp_bind, wp_with_VALIDATION_LOCK; simpl; intros Hlock;
    [apply cache_step_heap; intros ?? Hin; by in_log Hin|].
  apply wp_bind, wp_get_schema. intros r3 st3 Hschema Hr3 Hst3.
  destruct (get_schema_outcome _ _ _ _ _ Hschema) as (_ & _ & Hbound3 & Hr).
  assert (get_validator_cache st3 = get_validator_cache st) as Hcache3
    by (by rewrite Hst3).
  assert (classes_created st3 = classes_created st) as Hclasses3
    by (by rewrite Hst3).
  destruct r3 as [schema|e|]; [| |done]; simpl.
  2:{ destruct Hr as [-> Hr]. unfold cache_step. simpl.
      split; [done|]. split; [done|]. split.
      { intros mt e' Hin. in_log Hin. done. }
      split; [intros mt Hin; by in_log Hin|].
      intros Hno. exfalso. eapply Hno.
      repeat first [apply list_elem_of_here | apply list_elem_of_further]. }
  destruct Hr as (Hhash & rest & Hcache & _).
  apply wp_bind, wp_get_validator. intros cls st4 Hvalidator _ _ Hcache4.
  assert (is_Some (get_validator_cache st4)) as Hsome4.
  { rewrite get_validator_run in Hvalidator.
    destruct (get_validator_cache st3) eqn:Hc; simpl in Hvalidator;
      injection Hvalidator as <- <-; [rewrite Hc|simpl]; by eexists. }
  apply wp_logged_extern. intros res5 h5 _.
  destruct res5 as [e|[]]; simpl.
  - unfold cache_step. simpl.
    split; [intros Hb; unfold schema_cache_bounded; simpl; rewrite Hcache4;
            by apply Hbound3|].
    split; [intros Hnone; rewrite Hnone in Hsome4; by destruct Hsome4|].
    split; [intros mt e' Hin; by in_log Hin|].
    split.
    { intros mt Hin. in_log Hin. split; [done|].
      exists schema. rewrite Hcache4, Hcache. split; [done|].
      intros ???? Hin. by in_log Hin. }
    intros Hno. exfalso. eapply Hno.
      repeat first [apply list_elem_of_here | apply list_elem_of_further].
  - apply wp_run_checks. intros r6 st6 t6 _ Hst6 Ht6.
    rewrite Hst6. unfold cache_step. simpl.
    split; [intros Hb; unfold schema_cache_bounded; simpl; rewrite Hcache4;
            by apply Hbound3|].
    split; [intros Hnone; rewrite Hnone in Hsome4; by destruct Hsome4|].
    split.
    { intros mt e' Hin.
      destruct Ht6 as [[_ ->]|(before & c & after & e & _ & _ & ->)];
        unfold passed, ok in Hin; by in_log Hin. }
    split.
    { intros mt Hin.
      assert (mt = model_type) as ->.
      { destruct Ht6 as [[_ ->]|(before & c & after & e & _ & _ & ->)];
          unfold passed, ok in Hin; by in_log Hin. }
      split; [done|].
      exists schema. rewrite Hcache4, Hcache. split; [done|].
      intros ???? Hin'.
      destruct Ht6 as [[_ ->]|(before & c & after & e & _ & _ & ->)];
        unfold passed, ok in Hin'; by in_log Hin'. }
    intros Hno. exfalso. eapply Hno.
      repeat first [apply list_elem_of_here | apply list_elem_of_further].
Qed.

End CacheStepFacts.

(** ** Edge cases of [validate_config] *)

Section EdgeFacts.
Context `{Collaborators}.

(** A run in which [get_schema] does not return a schema for the
    [model_type] of the document. *)
Lemma validate_config_get_schema_raises config st r st' t d model_type :
  validate_config config st = (r, st', t) →
  upgrade_doc (deref (heap st) config) = inr d →
  dict_get d MODEL_TYPE (VStr MODEL_ECD) = inr model_type →
  Ev (get_schema_call model_type) None ∉ t →
  r ≠ Ret ()
  ∧ (get_validator_stage ∉ stages t)
  ∧ (validate_stage ∉ stages t)
  ∧ checks_run t = []
  ∧ get_schema_cache st' = get_schema_cache st
  ∧ (get_schema_stage ∈ stages t →
     ∃ e, Ev (get_schema_call model_type) (Some e) ∈ t
          ∧ r = Raise e ∧ lock_ops t = [Acquire; Release]).
Proof.
  intros Hrun Hup Hmt Hno.
  destruct (validate_config_cache_step _ _ _ _ _ Hrun)
    as (_ & _ & Hraised & _ & Hnone).
  apply validate_config_run_log in Hrun.
  destruct Hrun; same_results;
    try solve [exfalso; apply Hno; log_elem].
  all: try (split; [done|]; split;
            [intros Hs; unfold stages in Hs; simpl in Hs; by in_log Hs|];
            split;
            [intros Hs; unfold stages in Hs; simpl in Hs; by in_log Hs|];
            split; [done|]; split;
            [apply Hnone; intros ?? Hin; by in_log Hin|];
            intros Hs; unfold stages in Hs; simpl in Hs; by in_log Hs).
  edestruct Hraised as [Hcache _]; [log_elem|].
  split; [done|]. split; [intros Hs; unfold stages in Hs; simpl in Hs; by in_log Hs|].
  split; [intros Hs; unfold stages in Hs; simpl in Hs; by in_log Hs|].
  split; [done|]. split; [done|]. intros _.
  eexists. split; [log_elem|]. done.
Qed.

(** X5: a document whose [model_type] is unhashable, a list or a dict,
    is neither validated against a schema nor checked nor accepted:
    once the split validation has passed, [get_schema] raises
    [TypeError] under the lock, which is released; [get_validator] is
    not called and nothing is kept in the cache. *)
Theorem validate_config_unhashable_model_type config st r st' t d model_type :
  validate_config config st = (r, st', t) →
  upgrade_doc (deref (heap st) config) = inr d →
  dict_get d MODEL_TYPE (VStr MODEL_ECD) = inr model_type →
  Value.hashable model_type = false →
  r ≠ Ret ()
  ∧ (get_validator_stage ∉ stages t)
  ∧ (validate_stage ∉ stages t)
  ∧ checks_run t = []
  ∧ get_schema_cache st' = get_schema_cache st
  ∧ (get_schema_stage ∈ stages t →
     r = Raise (TypeError "unhashable type") ∧ lock_ops t = [Acquire; Release]).
Proof.
  intros Hrun Hup Hmt Hhash.
  destruct (validate_config_cache_step _ _ _ _ _ Hrun)
    as (_ & _ & Hraised & Hreturned & _).
  destruct (validate_config_get_schema_raises _ _ _ _ _ _ _ Hrun Hup Hmt)
    as (Hr & Hvalidator & Hvalidate & Hchecks & Hcache & Hschema).
  { intros Hin. destruct (Hreturned _ Hin) as [? _]. congruence. }
  split; [done|]. split; [done|]. split; [done|]. split; [done|]. split; [done|].
  intros Hs. destruct (Hschema Hs) as (e & Hin & -> & Hlock).
  destruct (Hraised _ _ Hin) as [_ [[_ ->]|[? _]]]; [done|congruence].
Qed.

(** X6: when the body of [get_schema] raises for the [model_type] of
    the document, as for a model type that is not registered,
    [validate_config] raises that exception once the split validation
    has passed: the document is neither validated against a schema nor
    checked, the lock is released, [get_validator] is not called and
    nothing is kept in the cache. *)
Theorem validate_config_schema_not_built config st r st' t d model_type e :
  schema_cache_sound st →
  validate_config config st = (r, st', t) →
  upgrade_doc (deref (heap st) config) = inr d →
  dict_get d MODEL_TYPE (VStr MODEL_ECD) = inr model_type →
  Value.hashable model_type = true →
  get_schema_uncached model_type = inl e →
  r ≠ Ret ()
  ∧ (get_validator_stage ∉ stages t)
  ∧ (validate_stage ∉ stages t)
  ∧ checks_run t = []
  ∧ get_schema_cache st' = get_schema_cache st
  ∧ (get_schema_stage ∈ stages t → r = Raise e ∧ lock_ops t = [Acquire; Release]).
Proof.
  intros Hsound Hrun Hup Hmt Hhash Hbody.
  destruct (validate_config_module_step _ _ _ _ _ Hrun) as (_ & Hsound' & _).
  destruct (validate_config_cache_step _ _ _ _ _ Hrun)
    as (_ & _ & Hraised & Hreturned & _).
  destruct (validate_config_get_schema_raises _ _ _ _ _ _ _ Hrun Hup Hmt)
    as (Hr & Hvalidator & Hvalidate & Hchecks & Hcache & Hschema).
  { intros Hin. destruct (Hreturned _ Hin) as (_ & schema & Hhead & _).
    assert (get_schema_uncached model_type = inr schema); [|congruence].
    apply (Hsound' Hsound). destruct (get_schema_cache st'); simplify_eq/=. left. }
  split; [done|]. split; [done|]. split; [done|]. split; [done|]. split; [done|].
  intros Hs. destruct (Hschema Hs) as (e' & Hin & -> & Hlock).
  destruct (Hraised _ _ Hin) as [_ [[? _]|[_ ?]]]; [congruence|].
  split; [congruence|done].
Qed.

(** X7: the default of [updated_config.get(PREPROCESSING, {})] is for a
    key that is not there: when [preprocessing] is there and is not a
    dict, [None] for instance, reading its [split] raises
    [AttributeError]; no splitter is asked for and nothing later
    runs. *)
Theorem validate_config_preprocessing_not_a_dict config st r st' t entries preprocessing :
  validate_config config st = (r, st', t) →
  upgrade_doc (deref (heap st) config) = inr (VDict entries) →
  lookup_key PREPROCESSING entries = Some preprocessing →
  (∀ section, preprocessing ≠ VDict section) →
  r = Raise (AttributeError "get")
  ∧ t = [ok (upgrade_call config); ok (model_type_read (new_loc st));
         Ev (split_read (new_loc st)) (Some (AttributeError "get"))].
Proof.
  intros Hrun Hup Hkey Hnot.
  assert (split_section (VDict entries) = inl (AttributeError "get")) as Hsplit.
  { unfold split_section. simpl. rewrite Hkey. simpl.
    destruct preprocessing; try done. by destruct (Hnot entries0). }
  apply validate_config_run_log in Hrun.
  destruct Hrun; same_results; done.
Qed.

Lemma validate_config_get_splitter_raises config st r st' t d split e :
  validate_config config st = (r, st', t) →
  upgrade_doc (deref (heap st) config) = inr d →
  split_section d = inr split →
  get_splitter_kwargs split = inl e →
  r = Raise e
  ∧ t = [ok (upgrade_call config); ok (model_type_read (new_loc st));
         ok (split_read (new_loc st)); Ev (get_splitter_call split) (Some e)].
Proof.
  intros Hrun Hup Hsplit He.
  apply (wp_run _ _
    (λ r _ t,
       r = Raise e
       ∧ t = [ok (upgrade_call config); ok (model_type_read (new_loc st));
              ok (split_read (new_loc st)); Ev (get_splitter_call split) (Some e)])
    _ _ _ Hrun).
  clear Hrun. rewrite validate_config_eq.
  apply wp_bind, wp_logged_extern. intros res h.
  unfold upgrade_config_dict_to_latest_version. rewrite Hup.
  intros [= <- <-]; simpl. fold (new_loc st).
  apply wp_bind, wp_logged_eval. simpl. rewrite deref_insert.
  destruct (dict_get d MODEL_TYPE (VStr MODEL_ECD)) as [e'|model_type] eqn:Hmt; simpl.
  { unfold split_section in Hsplit. by destruct d. }
  apply wp_bind, wp_logged_eval. simpl. rewrite deref_insert.
  fold (split_section d). rewrite Hsplit. simpl.
  apply wp_bind, wp_logged_eval. rewrite He. simpl. done.
Qed.

(** X8: the default of [.get(SPLIT, {})] is for a key that is not
    there: when [preprocessing.split] is there and is not a mapping,
    [None] for instance, [get_splitter( **split )] raises [TypeError]
    and nothing later runs. *)
Theorem validate_config_split_not_a_mapping config st r st' t d split :
  validate_config config st = (r, st', t) →
  upgrade_doc (deref (heap st) config) = inr d →
  split_section d = inr split →
  (∀ kwargs, split ≠ VDict kwargs) →
  r = Raise (TypeError "argument after ** must be a mapping")
  ∧ t = [ok (upgrade_call config); ok (model_type_read (new_loc st));
         ok (split_read (new_loc st));
         Ev (get_splitter_call split)
            (Some (TypeError "argument after ** must be a mapping"))].
Proof.
  intros Hrun Hup Hsplit Hnot.
  eapply validate_config_get_splitter_raises; [exact Hrun|exact Hup|exact Hsplit|].
  destruct split; try done. by destruct (Hnot entries).
Qed.

(** X9: whenever the structural validator is called, it is given the
    upgraded document, the schema that the body of [get_schema] gives
    for the [model_type] of that document ([MODEL_ECD] when the
    document has none), also when the schema comes from the cache, and
    a class whose type checker is the extended one; that schema is then
    the most recently used of the cache and that class the cached
    one. *)
Theorem validate_called_with_schema_of_model_type config st r st' t instance schema cls o :
  schema_cache_sound st →
  validator_cache_sound st →
  validate_config config st = (r, st', t) →
  Ev (validate_call instance schema cls) o ∈ t →
  instance = new_loc st
  ∧ (∃ d model_type,
       upgrade_doc (deref (heap st) config) = inr d
       ∧ dict_get d MODEL_TYPE (VStr MODEL_ECD) = inr model_type
       ∧ get_schema_uncached model_type = inr schema
       ∧ head (get_schema_cache st') = Some (model_type, schema))
  ∧ TYPE_CHECKER cls = extended_type_checker
  ∧ get_validator_cache st' = Some cls.
Proof.
  intros Hsound Hvsound Hrun Hin.
  destruct (validate_config_module_step _ _ _ _ _ Hrun)
    as (_ & Hsound' & Hvsound' & _ & _ & Hcls).
  destruct (validate_config_cache_step _ _ _ _ _ Hrun)
    as (_ & _ & _ & Hreturned & _).
  specialize (Hsound' Hsound). specialize (Hvsound' Hvsound).
  pose proof (Hcls _ _ _ _ Hin) as Hcached.
  destruct (Hvsound' _ Hcached) as [Hchecker _].
  apply validate_config_run_log in Hrun.
  assert (instance = new_loc st
          ∧ ∃ d model_type,
              upgrade_doc (deref (heap st) config) = inr d
              ∧ dict_get d MODEL_TYPE (VStr MODEL_ECD) = inr model_type
              ∧ Ev (get_schema_call model_type) None ∈ t) as (-> & d & model_type & Hup & Hmt & Hcall).
  { destruct Hrun; try (by in_log Hin);
      (split; [unfold passed in Hin; by in_log Hin|]);
      exists d, model_type; (split; [done|]); (split; [done|]); log_elem. }
  split; [done|]. split; [|done].
  exists d, model_type. split; [done|]. split; [done|].
  destruct (Hreturned _ Hcall) as (_ & schema' & Hhead & Hsame).
  rewrite (Hsame _ _ _ _ Hin). split; [|done].
  apply Hsound'. destruct (get_schema_cache st'); simplify_eq/=. left.
Qed.

(** X10: every failure of [validate_config] is the failure of one call:
    when it raises [e], the log ends with the call that raised [e],
    followed by the release of the lock when that call was made under
    it, and every call before it returned; when it returns, it has gone
    through all the stages and every call returned. *)
Theorem validate_config_failure_attribution config st r st' t :
  validate_config config st = (r, st', t) →
  match r with
  | Ret _ => stages t = pipeline ∧ (∀ c o, Ev c o ∈ t → o = None)
  | Raise e =>
      ∃ front c back,
        t = front ++ Ev c (Some e) :: back
        ∧ (∀ c' o, Ev c' o ∈ front → o = None)
        ∧ (back = [] ∨ back = [Release])
  | Blocked => ∀ c o, Ev c o ∈ t → o = None
  end.
Proof.
  intros Hrun. apply validate_config_run_log in Hrun.
  destruct Hrun as [e| d e| d mt e| d mt split e| d mt split e| d mt split
                   | d mt split e| d mt split schema cls e
                   | d mt split schema cls before c after e| d mt split schema cls].
  - exists [], (upgrade_call config), [].
    split; [done|]. split; [intros ?? Hin; by in_log Hin|by left].
  - exists [ok (upgrade_call config)], (model_type_read (new_loc st)), [].
    split; [done|]. split; [intros ?? Hin; by in_log Hin|by left].
  - exists [ok (upgrade_call config); ok (model_type_read (new_loc st))],
      (split_read (new_loc st)), [].
    split; [done|]. split; [intros ?? Hin; by in_log Hin|by left].
  - exists [ok (upgrade_call config); ok (model_type_read (new_loc st));
            ok (split_read (new_loc st))], (get_splitter_call split), [].
    split; [done|]. split; [intros ?? Hin; by in_log Hin|by left].
  - exists [ok (upgrade_call config); ok (model_type_read (new_loc st));
            ok (split_read (new_loc st)); ok (get_splitter_call split)],
      (splitter_validate_call (new_loc st)), [].
    split; [done|]. split; [intros ?? Hin; by in_log Hin|by left].
  - intros ?? Hin. by in_log Hin.
  - exists (before_lock config (new_loc st) split ++ [Acquire]),
      (get_schema_call mt), [Release].
    split; [done|]. split; [intros ?? Hin; by in_log Hin|by right].
  - exists (before_lock config (new_loc st) split
            ++ [Acquire; ok (get_schema_call mt); ok get_validator_call]),
      (validate_call (new_loc st) schema cls), [Release].
    split; [done|]. split; [intros ?? Hin; by in_log Hin|by right].
  - exists (before_lock config (new_loc st) split
            ++ locked_block (new_loc st) mt schema cls
            ++ passed before (new_loc st)),
      (check_call c (new_loc st)), [].
    split; [by rewrite <- !app_assoc|].
    split; [intros ?? Hin; unfold passed in Hin; by in_log Hin|by left].
  - split.
    + rewrite !stages_app, stages_passed. done.
    + intros ?? Hin. unfold passed in Hin. by in_log Hin.
Qed.

End EdgeFacts.

Section ProcessFacts.
Context `{Collaborators}.

Lemma fresh_process_module_invariant h : module_invariant (fresh_process h).
Proof.
  destruct (fresh_process_sound h) as [? ?].
  unfold module_invariant, schema_cache_bounded. simpl.
  repeat split; try done; lia.
Qed.

Lemma validate_config_module_invariant config st r st' t :
  module_invariant st →
  validate_config config st = (r, st', t) →
  module_invariant st'
  ∧ r ≠ Blocked
  ∧ (∀ instance schema cls o,
       Ev (validate_call instance schema cls) o ∈ t →
       class_id cls = 1%nat ∧ TYPE_CHECKER cls = extended_type_checker).
Proof.
  intros (Hlock & Hsound & Hvsound & Hbound & Hclasses & Hnone) Hrun.
  destruct (validate_config_module_step _ _ _ _ _ Hrun)
    as (Hlock' & Hsound' & Hvsound' & Hclasses' & Hcached & Hcls).
  destruct (validate_config_cache_step _ _ _ _ _ Hrun)
    as (Hbound' & Hnone' & _).
  specialize (Hsound' Hsound). specialize (Hvsound' Hvsound).
  assert (classes_created st' ≤ 1)%nat as Hone.
  { destruct (get_validator_cache st) as [cached|] eqn:Hcache.
    - destruct (Hcached _ eq_refl) as [_ ->]. done.
    - rewrite (Hnone eq_refl) in Hclasses'. lia. }
  split; [|split].
  - split; [congruence|]. split; [done|]. split; [done|].
    split; [by apply Hbound'|]. split; [done|].
    intros Hnone''. rewrite (Hnone' Hnone'').
    destruct (get_validator_cache st) as [cached|] eqn:Hcache; [|by apply Hnone].
    destruct (Hcached _ eq_refl) as [Hsome _]. congruence.
  - apply validate_config_run_log in Hrun. destruct Hrun; try done. congruence.
  - intros instance schema cls o Hin.
    destruct (Hvsound' _ (Hcls _ _ _ _ Hin)) as [Hchecker Hid].
    split; [lia|done].
Qed.

(** X11: however many documents a process validates, one after the
    other, and however the calls end, the module keeps its state in
    bounds: between the calls the lock is free, so that no call waits;
    [get_validator] makes one class at most, with which every
    structural validation is done; [get_schema] keeps two schemas at
    most, each the one of its model type. *)
Theorem validate_configs_module_invariant configs st rs st' t :
  module_invariant st →
  validate_configs configs st = (rs, st', t) →
  module_invariant st'
  ∧ length rs = length configs
  ∧ (Blocked ∉ rs)
  ∧ (∀ instance schema cls o,
       Ev (validate_call instance schema cls) o ∈ t →
       class_id cls = 1%nat ∧ TYPE_CHECKER cls = extended_type_checker).
Proof.
  revert st rs t. induction configs as [|config configs IH]; intros st rs t Hinv; simpl.
  - intros [= <- <- <-]. split; [done|]. split; [done|].
    split; [by intros ?%elem_of_nil|]. by intros ???? ?%elem_of_nil.
  - destruct (validate_config config st) as [[r st1] t1] eqn:Hrun.
    destruct (validate_configs configs st1) as [[rs2 st2] t2] eqn:Hrest.
    intros [= <- <- <-].
    destruct (validate_config_module_invariant _ _ _ _ _ Hinv Hrun)
      as (Hinv1 & Hr & Hcls1).
    destruct (IH _ _ _ Hinv1 Hrest) as (Hinv2 & Hlen & Hrs & Hcls2).
    split; [done|]. split; [simpl; by rewrite Hlen|]. split.
    + intros [?|?]%elem_of_cons; [by apply Hr|by apply Hrs].
    + intros instance schema cls o [Hin|Hin]%elem_of_app;
        [by eapply Hcls1|by eapply Hcls2].
Qed.

End ProcessFacts.

(** ** The statements at the reference instance *)

Section Witnesses.
Local Existing Instance Reference.collaborators.

Lemma get_schema_unknown_model_type_witness :
  trainer_schema_registry !! "nope" = None
  ∧ schema_cache_sound (fresh_process ∅)
  ∧ get_schema (VStr "nope") (fresh_process ∅)
    = (Raise (UnknownModelType (VStr "nope")), fresh_process ∅,
       [Ev (get_schema_call (VStr "nope")) (Some (UnknownModelType (VStr "nope")))]).
Proof.
  split; [vm_compute; reflexivity|].
  split; [apply fresh_process_sound|].
  apply get_schema_unknown_model_type; [vm_compute; reflexivity|].
  apply fresh_process_sound.
Defined.

(** C5 as stated fails: for a string that is not a registered model
    type, [get_schema] returns no schema. *)
Lemma get_schema_no_schema_for_unregistered :
  ¬ ∃ schema st' t,
      get_schema (VStr "nope") (fresh_process ∅) = (Ret schema, st', t).
Proof. intros (schema & st' & t & Hrun). vm_compute in Hrun. discriminate. Qed.

Lemma get_schema_required_and_properties_witness :
  trainer_schema_registry !! "gbm" = Some (Reference.fragment "object")
  ∧ schema_cache_sound (fresh_process ∅)
  ∧ ∃ schema st' properties,
      get_schema (VStr "gbm") (fresh_process ∅)
      = (Ret schema, st', [Ev (get_schema_call (VStr "gbm")) None])
      ∧ dict_item schema "required"
        = Some (VList [VStr INPUT_FEATURES; VStr OUTPUT_FEATURES])
      ∧ dict_item schema "properties" = Some properties
      ∧ dict_keys properties
        = [MODEL_TYPE; INPUT_FEATURES; OUTPUT_FEATURES; COMBINER; TRAINER;
           PREPROCESSING; HYPEROPT; DEFAULTS]
      ∧ properties
        = VDict
            [(MODEL_TYPE, get_model_type_jsonschema);
             (INPUT_FEATURES, get_input_feature_jsonschema);
             (OUTPUT_FEATURES, get_output_feature_jsonschema);
             (COMBINER, get_combiner_jsonschema);
             (TRAINER, Reference.fragment "object");
             (PREPROCESSING, get_preprocessing_jsonschema);
             (HYPEROPT, get_hyperopt_jsonschema);
             (DEFAULTS, get_defaults_jsonschema)].
Proof.
  split; [vm_compute; reflexivity|].
  split; [apply fresh_process_sound|].
  apply get_schema_required_and_properties; [vm_compute; reflexivity|].
  apply fresh_process_sound.
Defined.

Lemma get_schema_type_and_definitions_witness :
  ∃ schema st' t,
    schema_cache_sound (fresh_process ∅)
    ∧ get_schema (VStr "ecd") (fresh_process ∅) = (Ret schema, st', t)
    ∧ dict_item schema "type" = Some (VStr "object")
    ∧ dict_item schema "definitions" = Some (VDict []).
Proof.
  eexists _, _, _.
  split; [apply fresh_process_sound|].
  split; [vm_compute; reflexivity|].
  eapply (get_schema_type_and_definitions (VStr "ecd") (fresh_process ∅));
    [apply fresh_process_sound|].
  vm_compute. reflexivity.
Defined.

Lemma reference_change_their_argument_only : change_their_argument_only.
Proof.
  split; [|split].
  - by intros splitter l h l' _.
  - intros schema cls l h l' _. simpl. unfold Reference.validate.
    by repeat case_match.
  - intros c l h l' _. simpl. unfold Reference.auxiliary_validation.
    by repeat case_match.
Qed.

Lemma run_eta {A} (run : outcome A * state * list event) :
  run = (run.1.1, run.1.2, run.2).
Proof. by destruct run as [[??]?]. Qed.

(** A document with a structural and a semantic violation: the
    structural one is reported. *)
Lemma structural_violation_reported_first_witness :
  (∃ schema cls,
     Ev (validate_call 2%positive schema cls)
        (Some (StructuralValidationError "" "'output_features' is a required property"))
     ∈ (Reference.run Reference.bad_config).2)
  ∧ (auxiliary_validation check_feature_names_unique 1%positive
       (heap (Reference.process Reference.bad_config))).1
    = inl (SemanticCheckError "check_feature_names_unique" "age")
  ∧ (Reference.run Reference.bad_config).1.1
    = Raise (StructuralValidationError "" "'output_features' is a required property")
  ∧ checks_run (Reference.run Reference.bad_config).2 = [].
Proof.
  assert (∃ schema cls,
     Ev (validate_call 2%positive schema cls)
        (Some (StructuralValidationError "" "'output_features' is a required property"))
     ∈ (Reference.run Reference.bad_config).2) as Hin.
  { vm_compute. eexists _, _. do 8 apply list_elem_of_further. apply list_elem_of_here. }
  split; [exact Hin|]. split; [vm_compute; reflexivity|].
  destruct Hin as (schema & cls & Hin).
  exact (proj1 (structural_violation_reported_first _ _ _ _ _
                  (run_eta (Reference.run Reference.bad_config))) _ _ _ _ Hin).
Defined.

(** C1 as stated fails: a document with a structural and a semantic
    violation whose split strategy does not exist; the error reported
    is the one of the split. *)
Lemma split_error_reported_before_structural_violation :
  (∃ schema,
     get_schema_uncached (VStr MODEL_ECD) = inr schema
     ∧ (validate 1%positive schema (extend Draft7Validator extended_type_checker 1)
          (heap (Reference.process Reference.bad_split_config))).1
       = inl (StructuralValidationError "" "'output_features' is a required property"))
  ∧ (auxiliary_validation check_feature_names_unique 1%positive
       (heap (Reference.process Reference.bad_split_config))).1
    = inl (SemanticCheckError "check_feature_names_unique" "age")
  ∧ (Reference.run Reference.bad_split_config).1.1
    = Raise (SplitConfigError "unknown split strategy").
Proof.
  split; [eexists; split; vm_compute; reflexivity|].
  split; vm_compute; reflexivity.
Qed.

(** C2 as stated fails: an upgraded document without [output_features];
    no check raises, none is called, and [validate_config] does not
    return. *)
Lemma structural_error_although_no_check_raises :
  upgrade_doc Reference.bad_config = inr Reference.bad_config
  ∧ (∀ c l e, Ev (check_call c l) (Some e) ∉ (Reference.run Reference.bad_config).2)
  ∧ checks_run (Reference.run Reference.bad_config).2 = []
  ∧ (Reference.run Reference.bad_config).1.1
    = Raise (StructuralValidationError "" "'output_features' is a required property").
Proof.
  assert (checks_run (Reference.run Reference.bad_config).2 = []) as Hnil
    by (vm_compute; reflexivity).
  split; [reflexivity|]. split; [|split; [exact Hnil|vm_compute; reflexivity]].
  intros c l e. by apply checks_run_nil.
Qed.

(** A document that passes the structural validation and has two
    features of the same name: the second check raises, the other
    fourteen are not called. *)
Lemma semantic_checks_in_order_first_failure_witness :
  (∃ instance schema cls,
     Ev (validate_call instance schema cls) None
     ∈ (Reference.run Reference.duplicate_config).2)
  ∧ (Reference.run Reference.duplicate_config).1.1
    = Raise (SemanticCheckError "check_feature_names_unique" "age")
  ∧ checks_run (Reference.run Reference.duplicate_config).2
    = [check_validation_metrics_are_valid; check_feature_names_unique]
  ∧ ∃ front updated_config schema cls,
      checks_run front = []
      ∧ Ev (validate_call updated_config schema cls) None ∈ front
      ∧ ((Reference.run Reference.duplicate_config).1.1 = Ret ()
         ∧ (Reference.run Reference.duplicate_config).2
           = front ++ passed semantic_checks updated_config
         ∨ ∃ before c after e,
             semantic_checks = before ++ c :: after
             ∧ (Reference.run Reference.duplicate_config).1.1 = Raise e
             ∧ (Reference.run Reference.duplicate_config).2
               = front ++ passed before updated_config
                 ++ [Ev (check_call c updated_config) (Some e)]).
Proof.
  assert (∃ instance schema cls,
     Ev (validate_call instance schema cls) None
     ∈ (Reference.run Reference.duplicate_config).2) as Hin.
  { vm_compute. eexists _, _, _.
    do 8 apply list_elem_of_further. apply list_elem_of_here. }
  split; [exact Hin|]. split; [vm_compute; reflexivity|].
  split; [vm_compute; reflexivity|].
  exact (proj2 (semantic_checks_in_order_first_failure _ _ _ _ _
                  (run_eta (Reference.run Reference.duplicate_config)) Hin)).
Defined.

(** A document whose split strategy does not exist: [get_splitter]
    raises, after the read of [model_type] and before [get_schema]. *)
Lemma split_validation_after_model_type_read_witness :
  upgrade_doc (deref (heap (Reference.process Reference.bad_split_config)) 1%positive)
  = inr Reference.bad_split_config
  ∧ stage_of (get_splitter_call (VDict [("type", VStr "nope")]))
    ∈ [split_read_stage; get_splitter_stage; splitter_validate_stage]
  ∧ Ev (get_splitter_call (VDict [("type", VStr "nope")]))
       (Some (SplitConfigError "unknown split strategy"))
    ∈ (Reference.run Reference.bad_split_config).2
  ∧ stages (Reference.run Reference.bad_split_config).2 `prefix_of` pipeline
  ∧ split_section Reference.bad_split_config = inr (VDict [("type", VStr "nope")])
  ∧ (Reference.run Reference.bad_split_config).1.1
    = Raise (SplitConfigError "unknown split strategy")
  ∧ (get_schema_stage ∉ stages (Reference.run Reference.bad_split_config).2)
  ∧ (validate_stage ∉ stages (Reference.run Reference.bad_split_config).2)
  ∧ split_read_stage ∈ stages (Reference.run Reference.bad_split_config).2
  ∧ happens_before upgrade_stage split_read_stage
      (Reference.run Reference.bad_split_config).2
  ∧ happens_before model_type_stage split_read_stage
      (Reference.run Reference.bad_split_config).2.
Proof.
  assert (Ev (get_splitter_call (VDict [("type", VStr "nope")]))
            (Some (SplitConfigError "unknown split strategy"))
          ∈ (Reference.run Reference.bad_split_config).2) as Hin.
  { vm_compute. do 3 apply list_elem_of_further. apply list_elem_of_here. }
  assert (stage_of (get_splitter_call (VDict [("type", VStr "nope")]))
          ∈ [split_read_stage; get_splitter_stage; splitter_validate_stage]) as Hstage.
  { simpl. apply list_elem_of_further, list_elem_of_here. }
  assert (upgrade_doc
            (deref (heap (Reference.process Reference.bad_split_config)) 1%positive)
          = inr Reference.bad_split_config) as Hup by (vm_compute; reflexivity).
  destruct (split_validation_after_model_type_read _ _ _ _ _
              (run_eta (Reference.run Reference.bad_split_config)))
    as (Hprefix & Hkwargs & _ & Hraise & Horder & _).
  assert (split_read_stage ∈ stages (Reference.run Reference.bad_split_config).2)
    as Hread.
  { vm_compute. do 2 apply list_elem_of_further. apply list_elem_of_here. }
  split; [exact Hup|]. split; [exact Hstage|]. split; [exact Hin|].
  split; [exact Hprefix|]. split; [exact (Hkwargs _ _ _ Hup Hin)|].
  destruct (Hraise _ _ Hstage Hin) as (Hr & Hschema & Hvalidate).
  split; [exact Hr|]. split; [exact Hschema|]. split; [exact Hvalidate|].
  split; [exact Hread|]. exact (Horder Hread).
Defined.

(** C4 as stated fails: in the run on a well-formed document,
    [model_type] is read before [preprocessing.split] is, and before
    the splitter validates. *)
Lemma model_type_read_before_split_validation :
  happens_before model_type_stage split_read_stage (Reference.run Reference.good_config).2
  ∧ ¬ happens_before split_read_stage model_type_stage
        (Reference.run Reference.good_config).2
  ∧ ¬ happens_before splitter_validate_stage model_type_stage
        (Reference.run Reference.good_config).2.
Proof.
  assert (first_at model_type_stage (Reference.run Reference.good_config).2 = Some 1%nat)
    as Hm by (vm_compute; reflexivity).
  assert (first_at split_read_stage (Reference.run Reference.good_config).2 = Some 2%nat)
    as Hs by (vm_compute; reflexivity).
  assert (first_at splitter_validate_stage (Reference.run Reference.good_config).2
          = Some 4%nat) as Hv by (vm_compute; reflexivity).
  unfold happens_before. rewrite Hm, Hs, Hv. repeat split; lia.
Qed.



Lemma caller_document_unchanged_witness :
  change_their_argument_only
  ∧ is_Some (heap (Reference.process Reference.duplicate_config) !! 1%positive)
  ∧ (Reference.run Reference.duplicate_config).1.1
    = Raise (SemanticCheckError "check_feature_names_unique" "age")
  ∧ heap (Reference.run Reference.duplicate_config).1.2 !! 1%positive
    = heap (Reference.process Reference.duplicate_config) !! 1%positive.
Proof.
  assert (is_Some (heap (Reference.process Reference.duplicate_config) !! 1%positive))
    as Hsome by (vm_compute; eexists; reflexivity).
  split; [exact reference_change_their_argument_only|].
  split; [exact Hsome|]. split; [vm_compute; reflexivity|].
  exact (proj1 (caller_document_unchanged _ _ _ _ _
                  reference_change_their_argument_only
                  (run_eta (Reference.run Reference.duplicate_config))) _ Hsome).
Defined.

Lemma lock_held_from_get_schema_to_validate_witness :
  (Reference.run Reference.good_config).1.1 = Ret ()
  ∧ VALIDATION_LOCK (Reference.run Reference.good_config).1.2
    = VALIDATION_LOCK (Reference.process Reference.good_config)
  ∧ ((Reference.run Reference.good_config).1.1 = Blocked →
     VALIDATION_LOCK (Reference.process Reference.good_config) = true
     ∧ lock_ops (Reference.run Reference.good_config).2 = [])
  ∧ (lock_ops (Reference.run Reference.good_config).2 = []
     ∨ lock_ops (Reference.run Reference.good_config).2 = [Acquire; Release])
  ∧ (stage_of <$> under_lock false (Reference.run Reference.good_config).2)
    `prefix_of` [get_schema_stage; get_validator_stage; validate_stage]
  ∧ (∀ c, c ∈ outside_lock false (Reference.run Reference.good_config).2 →
       stage_of c ∈ [upgrade_stage; model_type_stage; split_read_stage;
                     get_splitter_stage; splitter_validate_stage]
       ∨ ∃ check, stage_of c = check_stage check).
Proof.
  split; [vm_compute; reflexivity|].
  exact (lock_held_from_get_schema_to_validate 1%positive
           (Reference.process Reference.good_config) _ _ _
           (run_eta (Reference.run Reference.good_config))).
Defined.

(** C8 as stated fails: in the run on a well-formed document the lock
    is held while [get_schema] and [get_validator] are called, not
    during the structural validation only. *)
Lemma lock_held_during_get_schema :
  get_schema_call (VStr "ecd") ∈ under_lock false (Reference.run Reference.good_config).2
  ∧ get_validator_call ∈ under_lock false (Reference.run Reference.good_config).2
  ∧ ¬ (∀ c, c ∈ under_lock false (Reference.run Reference.good_config).2 →
            stage_of c = validate_stage).
Proof.
  assert (get_schema_call (VStr "ecd")
          ∈ under_lock false (Reference.run Reference.good_config).2) as Hin.
  { vm_compute. apply list_elem_of_here. }
  split; [exact Hin|]. split.
  - vm_compute. apply list_elem_of_further, list_elem_of_here.
  - intros Hall. by specialize (Hall _ Hin).
Qed.

Lemma get_validator_memoized_witness :
  (∃ cls st',
     repeatedly 3 get_validator (fresh_process ∅)
     = (Ret [cls; cls; cls], st', replicate 3 (Ev get_validator_call None))
     ∧ classes_created st' = 1%nat)
  ∧ (classes_created (Reference.run Reference.good_config).1.2 ≤ 1)%nat.
Proof.
  destruct (get_validator_memoized 3 (fresh_process ∅))
    as [(cls & st' & Hrun & Hclasses & _ & Hcache) _].
  split.
  - exists cls, st'. split; [exact Hrun|].
    apply (f_equal (λ run, classes_created run.1.2)) in Hrun.
    symmetry. exact Hrun.
  - exact (proj1 (proj2 (get_validator_memoized 0
                           (Reference.process Reference.good_config)) _ _ _ _
                    (run_eta (Reference.run Reference.good_config)))).
Defined.

End Witnesses.

Section ProcessWitnesses.
Local Existing Instance Reference.collaborators.

Lemma triple_eta {A B C} (x : A * B * C) : x = (x.1.1, x.1.2, x.2).
Proof. by destruct x as [[??]?]. Qed.

(** The state after a first call for [ecd]: the second call is served
    from the cache and gives what the body gives. *)
Lemma get_schema_cache_transparent_witness :
  schema_cache_sound (get_schema (VStr "ecd") (fresh_process ∅)).1.2
  ∧ Value.hashable (VStr "ecd") = true
  ∧ cache_find (VStr "ecd") (get_schema_cache (get_schema (VStr "ecd") (fresh_process ∅)).1.2)
    ≠ None
  ∧ (get_schema (VStr "ecd") (get_schema (VStr "ecd") (fresh_process ∅)).1.2).1.1
    = of_result (get_schema_uncached (VStr "ecd")).
Proof.
  assert (schema_cache_sound (get_schema (VStr "ecd") (fresh_process ∅)).1.2) as Hsound.
  { by destruct (get_schema_run _ _ _ _ _ (proj1 (fresh_process_sound ∅))
                   (triple_eta (get_schema (VStr "ecd") (fresh_process ∅))))
      as (_ & _ & _ & _ & _ & ? & _). }
  split; [exact Hsound|]. split; [reflexivity|]. split; [by vm_compute|].
  exact (get_schema_cache_transparent (VStr "ecd") _ Hsound eq_refl).
Defined.

(** A second call for [gbm]; with providers that have no model type at
    all, whose body raises for [gbm], it returns the schema all the
    same. *)
Lemma get_schema_again_changes_nothing_witness :
  ∃ schema st' t,
    get_schema (VStr "gbm") (fresh_process ∅) = (Ret schema, st', t)
    ∧ @get_schema_uncached Documents.no_model_types (VStr "gbm")
      = inl (UnknownModelType (VStr "gbm"))
    ∧ cache_find (VStr "gbm") (get_schema_cache st') = Some schema
    ∧ get_schema (VStr "gbm") st' = (Ret schema, st', t)
    ∧ @get_schema Documents.no_model_types (VStr "gbm") st' = (Ret schema, st', t).
Proof.
  eexists _, _, _.
  split; [vm_compute; reflexivity|].
  split; [vm_compute; reflexivity|].
  refine ((λ Hthm,
             conj (proj1 Hthm)
               (conj (proj1 (proj2 Hthm)) (proj2 (proj2 Hthm) Documents.no_model_types)))
            (@get_schema_again_changes_nothing Reference.collaborators
               (VStr "gbm") (fresh_process ∅) _ _ _ _)).
  vm_compute. reflexivity.
Defined.

(** Calls for [ecd], [gbm] and [llm]: the schema of [ecd] is dropped. *)
Lemma get_schema_evicts_least_recently_used_witness :
  ∃ sa sb sc st1 st2 st3 t1 t2 t3,
    schema_cache_bounded (fresh_process ∅)
    ∧ @get_schema Documents.three_model_types (VStr "ecd") (fresh_process ∅)
      = (Ret sa, st1, t1)
    ∧ @get_schema Documents.three_model_types (VStr "gbm") st1 = (Ret sb, st2, t2)
    ∧ @get_schema Documents.three_model_types (VStr "llm") st2 = (Ret sc, st3, t3)
    ∧ get_schema_cache st2 = [(VStr "gbm", sb); (VStr "ecd", sa)]
    ∧ get_schema_cache st3 = [(VStr "llm", sc); (VStr "gbm", sb)]
    ∧ cache_find (VStr "ecd") (get_schema_cache st3) = None.
Proof.
  assert (schema_cache_bounded (fresh_process ∅)) as Hbound
    by (unfold schema_cache_bounded; simpl; lia).
  eexists _, _, _, _, _, _, _, _, _.
  split; [exact Hbound|].
  split; [vm_compute; reflexivity|].
  split; [vm_compute; reflexivity|].
  split; [vm_compute; reflexivity|].
  eapply (@get_schema_evicts_least_recently_used Documents.three_model_types
            "ecd" "gbm" "llm" _ _ _ (fresh_process ∅));
    [exact Hbound|done|done|done|vm_compute; reflexivity..].
Defined.

(** A call for a model type that is not registered. *)
Lemma get_schema_keeps_at_most_two_witness :
  schema_cache_bounded (fresh_process ∅)
  ∧ (get_schema (VStr "nope") (fresh_process ∅)).1.1
    = Raise (UnknownModelType (VStr "nope"))
  ∧ (get_schema (VStr "nope") (fresh_process ∅)).1.2 = fresh_process ∅.
Proof.
  assert (schema_cache_bounded (fresh_process ∅)) as Hbound
    by (unfold schema_cache_bounded; simpl; lia).
  split; [exact Hbound|].
  assert ((get_schema (VStr "nope") (fresh_process ∅)).1.1
          = Raise (UnknownModelType (VStr "nope"))) as Hr
    by (vm_compute; reflexivity).
  split; [exact Hr|].
  exact (proj1 (proj2 (proj2 (get_schema_keeps_at_most_two _ _ _ _ _ Hbound
           (triple_eta (get_schema (VStr "nope") (fresh_process ∅))))))
           _ Hr).
Defined.

(** A document whose [model_type] is a list. *)
Lemma validate_config_unhashable_model_type_witness :
  upgrade_doc (deref (heap (Reference.process Documents.list_model_type_config)) 1%positive)
  = inr Documents.list_model_type_config
  ∧ dict_get Documents.list_model_type_config MODEL_TYPE (VStr MODEL_ECD)
    = inr (VList [VStr "ecd"])
  ∧ Value.hashable (VList [VStr "ecd"]) = false
  ∧ get_schema_stage ∈ stages (Reference.run Documents.list_model_type_config).2
  ∧ (Reference.run Documents.list_model_type_config).1.1
    = Raise (TypeError "unhashable type")
  ∧ lock_ops (Reference.run Documents.list_model_type_config).2 = [Acquire; Release]
  ∧ (validate_stage ∉ stages (Reference.run Documents.list_model_type_config).2)
  ∧ checks_run (Reference.run Documents.list_model_type_config).2 = [].
Proof.
  assert (upgrade_doc
            (deref (heap (Reference.process Documents.list_model_type_config)) 1%positive)
          = inr Documents.list_model_type_config) as Hup by (vm_compute; reflexivity).
  assert (get_schema_stage ∈ stages (Reference.run Documents.list_model_type_config).2)
    as Hs.
  { vm_compute. do 5 apply list_elem_of_further. apply list_elem_of_here. }
  destruct (validate_config_unhashable_model_type _ _ _ _ _ _ (VList [VStr "ecd"])
              (run_eta (Reference.run Documents.list_model_type_config)) Hup
              eq_refl eq_refl)
    as (_ & _ & Hvalidate & Hchecks & _ & Hschema).
  split; [exact Hup|]. split; [reflexivity|]. split; [reflexivity|].
  split; [exact Hs|].
  split; [exact (proj1 (Hschema Hs))|]. split; [exact (proj2 (Hschema Hs))|].
  split; [exact Hvalidate|exact Hchecks].
Defined.

(** A document of a model type that is not registered. *)
Lemma validate_config_schema_not_built_witness :
  schema_cache_sound (Reference.process (VDict [(MODEL_TYPE, VStr "nope")]))
  ∧ upgrade_doc (deref (heap (Reference.process (VDict [(MODEL_TYPE, VStr "nope")]))) 1%positive)
    = inr (VDict [(MODEL_TYPE, VStr "nope")])
  ∧ dict_get (VDict [(MODEL_TYPE, VStr "nope")]) MODEL_TYPE (VStr MODEL_ECD)
    = inr (VStr "nope")
  ∧ get_schema_uncached (VStr "nope") = inl (UnknownModelType (VStr "nope"))
  ∧ get_schema_stage ∈ stages (Reference.run (VDict [(MODEL_TYPE, VStr "nope")])).2
  ∧ (Reference.run (VDict [(MODEL_TYPE, VStr "nope")])).1.1
    = Raise (UnknownModelType (VStr "nope"))
  ∧ (validate_stage ∉ stages (Reference.run (VDict [(MODEL_TYPE, VStr "nope")])).2).
Proof.
  assert (get_schema_uncached (VStr "nope") = inl (UnknownModelType (VStr "nope")))
    as Hbody by (vm_compute; reflexivity).
  assert (get_schema_stage ∈ stages (Reference.run (VDict [(MODEL_TYPE, VStr "nope")])).2)
    as Hs.
  { vm_compute. do 5 apply list_elem_of_further. apply list_elem_of_here. }
  destruct (validate_config_schema_not_built _ _ _ _ _ _ (VStr "nope") _
              (proj1 (fresh_process_sound _))
              (run_eta (Reference.run (VDict [(MODEL_TYPE, VStr "nope")])))
              eq_refl eq_refl eq_refl Hbody)
    as (_ & _ & Hvalidate & _ & _ & Hschema).
  split; [exact (proj1 (fresh_process_sound _))|].
  split; [reflexivity|]. split; [reflexivity|]. split; [exact Hbody|].
  split; [exact Hs|]. split; [exact (proj1 (Hschema Hs))|exact Hvalidate].
Defined.

(** A document whose [preprocessing] is [None]. *)
Lemma validate_config_preprocessing_not_a_dict_witness :
  upgrade_doc
    (deref (heap (Reference.process Documents.null_preprocessing_config)) 1%positive)
  = inr Documents.null_preprocessing_config
  ∧ dict_item Documents.null_preprocessing_config PREPROCESSING = Some VNone
  ∧ (∀ section, VNone ≠ VDict section)
  ∧ (Reference.run Documents.null_preprocessing_config).1.1
    = Raise (AttributeError "get")
  ∧ (Reference.run Documents.null_preprocessing_config).2
    = [ok (upgrade_call 1%positive); ok (model_type_read 2%positive);
       Ev (split_read 2%positive) (Some (AttributeError "get"))].
Proof.
  split; [reflexivity|]. split; [reflexivity|]. split; [done|].
  exact (validate_config_preprocessing_not_a_dict 1%positive
           (Reference.process Documents.null_preprocessing_config) _ _ _ _ VNone
           (run_eta (Reference.run Documents.null_preprocessing_config))
           eq_refl eq_refl (λ section, ltac:(discriminate))).
Defined.

(** A document whose [preprocessing.split] is [None]. *)
Lemma validate_config_split_not_a_mapping_witness :
  upgrade_doc (deref (heap (Reference.process Documents.null_split_config)) 1%positive)
  = inr Documents.null_split_config
  ∧ split_section Documents.null_split_config = inr VNone
  ∧ (∀ kwargs, VNone ≠ VDict kwargs)
  ∧ (Reference.run Documents.null_split_config).1.1
    = Raise (TypeError "argument after ** must be a mapping")
  ∧ (Reference.run Documents.null_split_config).2
    = [ok (upgrade_call 1%positive); ok (model_type_read 2%positive);
       ok (split_read 2%positive);
       Ev (get_splitter_call VNone)
          (Some (TypeError "argument after ** must be a mapping"))].
Proof.
  split; [reflexivity|]. split; [reflexivity|]. split; [done|].
  exact (validate_config_split_not_a_mapping 1%positive
           (Reference.process Documents.null_split_config) _ _ _
           Documents.null_split_config VNone
           (run_eta (Reference.run Documents.null_split_config))
           eq_refl eq_refl (λ kwargs, ltac:(discriminate))).
Defined.

(** The run on a well-formed document without [model_type]. *)
Lemma validate_called_with_schema_of_model_type_witness :
  schema_cache_sound (Reference.process Reference.good_config)
  ∧ validator_cache_sound (Reference.process Reference.good_config)
  ∧ ∃ schema cls,
      Ev (validate_call 2%positive schema cls) None ∈ (Reference.run Reference.good_config).2
      ∧ 2%positive = new_loc (Reference.process Reference.good_config)
      ∧ (∃ d model_type,
           upgrade_doc (deref (heap (Reference.process Reference.good_config)) 1%positive)
           = inr d
           ∧ dict_get d MODEL_TYPE (VStr MODEL_ECD) = inr model_type
           ∧ get_schema_uncached model_type = inr schema
           ∧ head (get_schema_cache (Reference.run Reference.good_config).1.2)
             = Some (model_type, schema))
      ∧ TYPE_CHECKER cls = extended_type_checker
      ∧ get_validator_cache (Reference.run Reference.good_config).1.2 = Some cls.
Proof.
  split; [exact (proj1 (fresh_process_sound _))|].
  split; [exact (proj2 (fresh_process_sound _))|].
  assert (∃ schema cls,
     Ev (validate_call 2%positive schema cls) None
     ∈ (Reference.run Reference.good_config).2) as (schema & cls & Hin).
  { vm_compute. eexists _, _. do 8 apply list_elem_of_further. apply list_elem_of_here. }
  exists schema, cls. split; [exact Hin|].
  exact (validate_called_with_schema_of_model_type _ _ _ _ _ _ _ _ _
           (proj1 (fresh_process_sound _)) (proj2 (fresh_process_sound _))
           (run_eta (Reference.run Reference.good_config)) Hin).
Defined.

(** A document without [output_features]: the structural validator
    raises, under the lock. *)
Lemma validate_config_failure_attribution_witness :
  (Reference.run Reference.bad_config).1.1
  = Raise (StructuralValidationError "" "'output_features' is a required property")
  ∧ match (Reference.run Reference.bad_config).1.1 with
    | Ret _ =>
        stages (Reference.run Reference.bad_config).2 = pipeline
        ∧ (∀ c o, Ev c o ∈ (Reference.run Reference.bad_config).2 → o = None)
    | Raise e =>
        ∃ front c back,
          (Reference.run Reference.bad_config).2 = front ++ Ev c (Some e) :: back
          ∧ (∀ c' o, Ev c' o ∈ front → o = None)
          ∧ (back = [] ∨ back = [Release])
    | Blocked => ∀ c o, Ev c o ∈ (Reference.run Reference.bad_config).2 → o = None
    end.
Proof.
  split; [vm_compute; reflexivity|].
  exact (validate_config_failure_attribution 1%positive
           (Reference.process Reference.bad_config) _ _ _
           (run_eta (Reference.run Reference.bad_config))).
Defined.

(** Four calls in a process with three documents: of [ecd], with a
    missing key, of [gbm], and the first again. *)
Lemma validate_configs_module_invariant_witness :
  module_invariant Documents.process
  ∧ (validate_configs [1; 2; 3; 1]%positive Documents.process).1.1
    = [Ret (); Raise (StructuralValidationError "" "'output_features' is a required property");
       Ret (); Ret ()]
  ∧ module_invariant (validate_configs [1; 2; 3; 1]%positive Documents.process).1.2
  ∧ classes_created (validate_configs [1; 2; 3; 1]%positive Documents.process).1.2 = 1%nat
  ∧ (get_schema_cache (validate_configs [1; 2; 3; 1]%positive Documents.process).1.2).*1
    = [VStr "ecd"; VStr "gbm"].
Proof.
  split; [apply fresh_process_module_invariant|].
  split; [vm_compute; reflexivity|].
  split; [|split; vm_compute; reflexivity].
  exact (proj1 (validate_configs_module_invariant [1; 2; 3; 1]%positive
                  Documents.process _ _ _
                  (fresh_process_module_invariant _)
                  (triple_eta (validate_configs [1; 2; 3; 1]%positive Documents.process)))).
Defined.

End ProcessWitnesses.
